(** * ckeditor4-angular: the wrapper component and its test tools

    A shallow embedding of
      - [src/src/test.tools.ts]: the mock native data transfer and the
        sequenced data injection helper ([setDataMultipleTimes],
        [setDataHelper]);
      - [src/ckeditor/esm2020/ckeditor.component.mjs]: the data and
        read-only accessors, the lifecycle hooks, [createEditor], [subscribe]
        and [propagateChange] of [CKEditorComponent].

    JavaScript values are modelled as follows: a string-or-null value is an
    [option string] ([None] is [null]); the own properties of an object used
    as a dictionary are a [gmap], a missing one is [None] of the lookup, and
    what the object inherits from [Object.prototype] is added where it is
    read; an array is a [list]; an event object is represented by its
    [name].

    Methods of the component are state transformers that also record, in
    order, what they do to the outside: outputs emitted, calls into the
    editor instance, callbacks invoked. Subscribers of the outputs and the
    registered callbacks are opaque and are taken not to call back into the
    component; [ngZone.run] and [ngZone.runOutsideAngular] run their
    argument and are not recorded. *)

From stdpp Require Import gmap strings list fin_maps.
From Stdlib Require Import ZArith Lia.

Local Open Scope string_scope.
Local Open Scope Z_scope.
Local Open Scope list_scope.

(** ** The mock native data transfer ([mockNativeDataTransfer]) *)

Module DataTransfer.

(** The object literal returned by [mockNativeDataTransfer]: the ordered
    [types] array and the own properties of the [_data] object ([files] is
    never touched by the three methods). *)
Record t := mk {
  types : list string;
  _data : gmap string string
}.

(** [_data] is a [{}] literal, so what it does not hold itself is looked up
    in [Object.prototype]. These are the names of the members of that
    prototype (ECMAScript, with the legacy accessors every browser has). *)
Definition Object_prototype : list string :=
  [ "constructor"; "hasOwnProperty"; "isPrototypeOf"; "propertyIsEnumerable";
    "toLocaleString"; "toString"; "valueOf"; "__proto__";
    "__defineGetter__"; "__defineSetter__"; "__lookupGetter__"; "__lookupSetter__" ].

(** The assignment [object[ key ] = value] of a string to such an object. It
    makes an own property, also under the name of an inherited method, with
    one exception: ['__proto__'] is an accessor of the prototype, and its
    setter ignores a value that is neither an object nor [null], so that
    nothing is stored. *)
Definition assign (key value : string) (object : gmap string string)
  : gmap string string :=
  if decide (key = "__proto__") then object else <[key := value]> object.

(** What the read [object[ key ]] gives: a stored string, or a member of
    [Object.prototype] (a function, or the prototype itself for
    ['__proto__']), told by its name. *)
Inductive Value :=
| Str (s : string)
| Member (name : string).

#[global] Instance Value_eq_dec : EqDecision Value.
Proof. solve_decision. Defined.

Definition mockNativeDataTransfer : t := {| types := []; _data := ∅ |}.

(** [CKEDITOR.tools.indexOf( array, value )]: index of the first element
    strictly equal to [value], [-1] when there is none. *)
Fixpoint indexOf_from (array : list string) (value : string) (i : Z) : Z :=
  match array with
  | [] => -1
  | x :: rest => if decide (x = value) then i else indexOf_from rest value (i + 1)
  end.

Definition indexOf (array : list string) (value : string) : Z :=
  indexOf_from array value 0.

(** [array.splice( index, 1 )] for [index >= 0]. *)
Definition splice1 (array : list string) (index : Z) : list string :=
  delete (Z.to_nat index) array.

Definition setData (type data : string) (dt : t) : t :=
  let stored :=
    if decide (type = "text/plain" ∨ type = "Text")
    then <["Text" := data]> (<["text/plain" := data]> (_data dt))
    else assign type data (_data dt) in
  {| types := types dt ++ [type]; _data := stored |}.

(** [getData( type )] where it gives a string: the own property of [_data]
    under [type], [None] when the object holds none. *)
Definition getData (type : string) (dt : t) : option string :=
  _data dt !! type.

(** What the read of a name that the object does not hold gives: the member
    of [Object.prototype] of that name, [undefined] ([None]) if there is
    none. *)
Definition inherited (type : string) : option Value :=
  if decide (type ∈ Object_prototype) then Some (Member type) else None.

(** [getData( type )] in full, [return this._data[ type ]]: the own property
    if there is one, else what is inherited under that name. *)
Definition read (type : string) (dt : t) : option Value :=
  match getData type dt with
  | Some s => Some (Str s)
  | None => inherited type
  end.

Definition clearData (type : string) (dt : t) : t :=
  let index := indexOf (types dt) type in
  if decide (index ≠ -1)
  then {| types := splice1 (types dt) index; _data := delete type (_data dt) |}
  else dt.

(** A run of [setData] calls, oldest first. *)
Definition setData_all (calls : list (string * string)) (dt : t) : t :=
  foldl (λ acc call, setData call.1 call.2 acc) dt calls.

(** The scenario of the specification, as it is worded there: after
    [setData('Text', 'hello')] the value is read back under ['text/plain'],
    and [clearData('Text')] then removes the ['text/plain'] entry too and
    leaves neither type in the list. *)
Definition scenario_as_stated : Prop :=
  let dt1 := setData "Text" "hello" mockNativeDataTransfer in
  let dt2 := clearData "Text" dt1 in
  getData "text/plain" dt1 = Some "hello"
  ∧ getData "text/plain" dt2 = None
  ∧ ("Text" ∉ types dt2) ∧ ("text/plain" ∉ types dt2).

End DataTransfer.

(** ** The native editor instance, as the wrapper and the helpers use it

    The editor is an external collaborator (CKEditor 4). It is kept abstract:
    any type [E] of editor states with the operations below. No law relates
    [getData] to [setData]: the editor may filter or normalise what it is
    given, and the results that follow hold for every such editor.

    The document the editor is put in comes with it. The wrapper makes one
    call on it that can fail, [document.createElement( tagName )], which
    throws [InvalidCharacterError] for a tag name that is not an element
    name (the empty string, say); [createElement] tells whether the call
    returns an element. *)

Module Editor.

Class API (E : Type) := {
  getData : E → string;                  (* editor.getData() *)
  setData : option string → E → E;       (* editor.setData( data ) *)
  readOnly : E → bool;                   (* editor.readOnly *)
  setReadOnly : option bool → E → E;     (* editor.setReadOnly( isReadOnly ) *)
  undoManager : E → bool;                (* is editor.undoManager truthy *)
  lock : E → E;                          (* editor.undoManager.lock() *)
  unlock : E → E;                        (* editor.undoManager.unlock() *)
  isInline : E → bool;                   (* editor.editable().isInline() *)
  createElement : string → bool;         (* document.createElement( tagName ) returns *)
  (* unlocking the undo manager does not touch the content *)
  getData_unlock : ∀ e, getData (unlock e) = getData e
}.

End Editor.

(** ** The wrapper component ([CKEditorComponent]) *)

Module Output.
(** The fourteen [EventEmitter] outputs of the component. *)
Inductive t :=
| namespaceLoaded | ready | dataReady | change | dataChange
| dragStart | dragEnd | drop | fileUploadResponse | fileUploadRequest
| focus | paste | afterPaste | blur.

#[global] Instance eq_dec : EqDecision t.
Proof. solve_decision. Defined.
End Output.

Module Component.

Inductive EditorType := CLASSIC | INLINE.

(** The listeners [subscribe] registers on the editor: an arrow function
    that emits one output, the blur arrow function, or the method
    [propagateChange]. *)
Inductive Handler :=
| Forward (o : Output.t)
| BlurHandler
| PropagateChange.

(** What an output is emitted with. *)
Inductive Payload :=
| Evt (name : string)        (* a native event object *)
| Data (newData : string)    (* the serialized content *)
| Namespace.                 (* the CKEDITOR namespace *)

(** Method calls on the editor instance. *)
Inductive Call :=
| call_setData (data : option string) (callback : bool)
| call_getData
| call_setReadOnly (isReadOnly : option bool)
| call_lock
| call_unlock
| call_fire (name : string)
| call_on (name : string) (h : Handler)
| call_destroy.

(** Everything a handler does that is visible outside the component, in
    the order it happens. *)
Inductive Effect :=
| Emit (o : Output.t) (p : Payload)
| Invoke (c : Call)
| OnChange (newData : string)      (* this.onChange( newData ) *)
| OnTouched                        (* this.onTouched() *)
| UserInstanceReady                (* userInstanceReadyCallback( evt ) *)
| AppendChild (tagName : string)
| Create (type : EditorType).      (* CKEDITOR.inline / CKEDITOR.replace *)

#[global] Instance Handler_eq_dec : EqDecision Handler.
Proof. solve_decision. Defined.
#[global] Instance Payload_eq_dec : EqDecision Payload.
Proof. solve_decision. Defined.
#[global] Instance Call_eq_dec : EqDecision Call.
Proof. solve_decision. Defined.
#[global] Instance EditorType_eq_dec : EqDecision EditorType.
Proof. solve_decision. Defined.
#[global] Instance Effect_eq_dec : EqDecision Effect.
Proof. solve_decision. Defined.

(** The editor object [this.instance] refers to: the native state and the
    listeners the component registered with [editor.on], oldest first. *)
Record Instance (E : Type) := mkInstance {
  native : E;
  listeners : list (string * Handler)
}.
Arguments mkInstance {E}.
Arguments native {E}.
Arguments listeners {E}.

(** The fields of the component that its methods read or write. The two
    registered callbacks and [config.on.instanceReady] are opaque
    functions: only their presence is recorded. *)
Record t (E : Type) := mk {
  _data : option string;
  _readOnly : option bool;
  _destroyed : bool;
  instance : option (Instance E);
  onChange : bool;
  onTouched : bool;
  type : EditorType;
  tagName : string;
  config_on_instanceReady : bool
}.
Arguments mk {E}.
Arguments _data {E}.
Arguments _readOnly {E}.
Arguments _destroyed {E}.
Arguments instance {E}.
Arguments onChange {E}.
Arguments onTouched {E}.
Arguments type {E}.
Arguments tagName {E}.
Arguments config_on_instanceReady {E}.

(** The state set up by the constructor; [config], [onChange] and
    [onTouched] are left [undefined]. *)
Definition constructor {E} : t E :=
  {| _data := None; _readOnly := None; _destroyed := false;
     instance := None; onChange := false; onTouched := false;
     type := CLASSIC; tagName := "textarea";
     config_on_instanceReady := false |}.

(** Assignments to the fields. *)
Definition with_data {E} (d : option string) (c : t E) : t E :=
  mk d (_readOnly c) (_destroyed c) (instance c) (onChange c)
     (onTouched c) (type c) (tagName c) (config_on_instanceReady c).
Definition with_readOnly {E} (r : option bool) (c : t E) : t E :=
  mk (_data c) r (_destroyed c) (instance c) (onChange c)
     (onTouched c) (type c) (tagName c) (config_on_instanceReady c).
Definition with_destroyed {E} (b : bool) (c : t E) : t E :=
  mk (_data c) (_readOnly c) b (instance c) (onChange c)
     (onTouched c) (type c) (tagName c) (config_on_instanceReady c).
Definition with_instance {E} (i : option (Instance E)) (c : t E) : t E :=
  mk (_data c) (_readOnly c) (_destroyed c) i (onChange c)
     (onTouched c) (type c) (tagName c) (config_on_instanceReady c).
Definition with_onChange {E} (b : bool) (c : t E) : t E :=
  mk (_data c) (_readOnly c) (_destroyed c) (instance c) b
     (onTouched c) (type c) (tagName c) (config_on_instanceReady c).
Definition with_onTouched {E} (b : bool) (c : t E) : t E :=
  mk (_data c) (_readOnly c) (_destroyed c) (instance c) (onChange c)
     b (type c) (tagName c) (config_on_instanceReady c).
Definition with_type {E} (ty : EditorType) (c : t E) : t E :=
  mk (_data c) (_readOnly c) (_destroyed c) (instance c) (onChange c)
     (onTouched c) ty (tagName c) (config_on_instanceReady c).
Definition with_config_on_instanceReady {E} (b : bool) (c : t E) : t E :=
  mk (_data c) (_readOnly c) (_destroyed c) (instance c) (onChange c)
     (onTouched c) (type c) (tagName c) b.

(** How a method ends: normally, or with an exception thrown; either way
    with the component as it left it and the effects it had so far. *)
Inductive Outcome (S A : Type) :=
| Ok (a : A) (s : S) (trace : list Effect)
| Throw (error : string) (s : S) (trace : list Effect).
Arguments Ok {S A}.
Arguments Throw {S A}.

(** The effects [tr] came first. *)
Definition prepend {S A} (tr : list Effect) (o : Outcome S A) : Outcome S A :=
  match o with
  | Ok a s tr' => Ok a s (tr ++ tr')
  | Throw e s tr' => Throw e s (tr ++ tr')
  end.

Definition state_of {S A} (o : Outcome S A) : S :=
  match o with Ok _ s _ | Throw _ s _ => s end.
Definition trace_of {S A} (o : Outcome S A) : list Effect :=
  match o with Ok _ _ tr | Throw _ _ tr => tr end.

(** What was emitted on output [o] in a trace, oldest first. *)
Fixpoint emissions (o : Output.t) (tr : list Effect) : list Payload :=
  match tr with
  | [] => []
  | Emit o' p :: rest =>
      if decide (o' = o) then p :: emissions o rest else emissions o rest
  | _ :: rest => emissions o rest
  end.

(** The calls into the editor instance made in a trace, oldest first. *)
Fixpoint calls (tr : list Effect) : list Call :=
  match tr with
  | [] => []
  | Invoke c :: rest => c :: calls rest
  | _ :: rest => calls rest
  end.

(** The arguments of the [setReadOnly] calls made in a trace. *)
Fixpoint setReadOnly_calls (tr : list Effect) : list (option bool) :=
  match tr with
  | [] => []
  | Invoke (call_setReadOnly v) :: rest => v :: setReadOnly_calls rest
  | _ :: rest => setReadOnly_calls rest
  end.

Section Methods.
Context {E : Type} `{Editor.API E}.

(** Methods are state transformers over the component. *)
Definition M (A : Type) : Type := t E → Outcome (t E) A.

#[global] Instance M_ret : MRet M := λ A a c, Ok a c [].
#[global] Instance M_bind : MBind M := λ A B f m c,
  match m c with
  | Ok a c1 tr1 =>
      match f a c1 with
      | Ok b c2 tr2 => Ok b c2 (tr1 ++ tr2)
      | Throw e c2 tr2 => Throw e c2 (tr1 ++ tr2)
      end
  | Throw e c1 tr1 => Throw e c1 tr1
  end.

Definition get : M (t E) := λ c, Ok c c [].
Definition tell (e : Effect) : M unit := λ c, Ok tt c [e].
Definition throw {A} (error : string) : M A := λ c, Throw error c [].

Definition put_data (d : option string) : M unit :=
  λ c, Ok tt (with_data d c) [].
Definition put_readOnly (r : option bool) : M unit :=
  λ c, Ok tt (with_readOnly r c) [].
Definition put_destroyed (b : bool) : M unit :=
  λ c, Ok tt (with_destroyed b c) [].
Definition put_instance (i : option (Instance E)) : M unit :=
  λ c, Ok tt (with_instance i c) [].
Definition put_onChange (b : bool) : M unit :=
  λ c, Ok tt (with_onChange b c) [].
Definition put_onTouched (b : bool) : M unit :=
  λ c, Ok tt (with_onTouched b c) [].

(** Dereferencing [this.instance]: a [TypeError] when it is [null] or
    [undefined]. *)
Definition the_instance : M (Instance E) :=
  c ← get;
  match instance c with
  | Some i => mret i
  | None => throw "TypeError"
  end.

(** A method call that changes the editor, and one that reads from it. *)
Definition invoke (call : Call) (f : E → E) : M unit :=
  i ← the_instance;
  tell (Invoke call);;
  put_instance (Some (mkInstance (f (native i)) (listeners i))).

Definition query {A} (call : Call) (f : E → A) : M A :=
  i ← the_instance;
  tell (Invoke call);;
  mret (f (native i)).

(** [set data( data )] *)
Definition set_data (data : option string) : M unit :=
  c ← get;
  if decide (data = _data c) then mret tt
  else if instance c is Some _ then
    invoke (call_setData data false) (Editor.setData data);;
    (* Data may be changed by ACF. *)
    newData ← query call_getData Editor.getData;
    put_data (Some newData)
  else put_data data.

(** [get data()] *)
Definition get_data : M (option string) := c ← get; mret (_data c).

(** [set readOnly( isReadOnly )] *)
Definition set_readOnly (isReadOnly : option bool) : M unit :=
  c ← get;
  if instance c is Some _ then
    invoke (call_setReadOnly isReadOnly) (Editor.setReadOnly isReadOnly)
  else
    (* Delay setting read-only state until editor initialization. *)
    put_readOnly isReadOnly.

(** [get readOnly()] *)
Definition get_readOnly : M (option bool) :=
  c ← get;
  match instance c with
  | Some i => mret (Some (Editor.readOnly (native i)))
  | None => mret (_readOnly c)
  end.

Definition writeValue (value : option string) : M unit := set_data value.
Definition registerOnChange : M unit := put_onChange true.
Definition registerOnTouched : M unit := put_onTouched true.

(** [propagateChange( event )] *)
Definition propagateChange (name : string) : M unit :=
  newData ← query call_getData Editor.getData;
  (if decide (name = "change") then tell (Emit Output.change (Evt name))
   else if decide (name = "dataReady") then tell (Emit Output.dataReady (Evt name))
   else mret tt);;
  data ← get_data;
  if decide (Some newData = data) then mret tt
  else
    put_data (Some newData);;
    tell (Emit Output.dataChange (Data newData));;
    c ← get;
    if onChange c then tell (OnChange newData) else mret tt.

(** [editor.on( name, handler )] *)
Definition on (name : string) (h : Handler) : M unit :=
  i ← the_instance;
  tell (Invoke (call_on name h));;
  put_instance (Some (mkInstance (native i) (listeners i ++ [(name, h)]))).

(** [subscribe( editor )] *)
Definition subscribe : M unit :=
  on "focus" (Forward Output.focus);;
  on "paste" (Forward Output.paste);;
  on "afterPaste" (Forward Output.afterPaste);;
  on "dragend" (Forward Output.dragEnd);;
  on "dragstart" (Forward Output.dragStart);;
  on "drop" (Forward Output.drop);;
  on "fileUploadRequest" (Forward Output.fileUploadRequest);;
  on "fileUploadResponse" (Forward Output.fileUploadResponse);;
  on "blur" BlurHandler;;
  on "dataReady" PropagateChange;;
  i ← the_instance;
  if Editor.undoManager (native i) then on "change" PropagateChange
  (* If 'undo' plugin is not loaded, listen to 'selectionCheck' event instead. *)
  else on "selectionCheck" PropagateChange.

(** Running one registered listener on an event called [name]. *)
Definition handle (h : Handler) (name : string) : M unit :=
  match h with
  | Forward o => tell (Emit o (Evt name))
  | BlurHandler =>
      c ← get;
      (if onTouched c then tell OnTouched else mret tt);;
      tell (Emit Output.blur (Evt name))
  | PropagateChange => propagateChange name
  end.

Fixpoint handle_all (hs : list Handler) (name : string) : M unit :=
  match hs with
  | [] => mret tt
  | h :: rest => handle h name;; handle_all rest name
  end.

Definition listeners_for (name : string) (i : Instance E) : list Handler :=
  (filter (λ l, l.1 = name) (listeners i)).*2.

(** A native event of the editor reaching the component: every listener
    registered under [name] runs, in registration order. *)
Definition deliver (name : string) : M unit :=
  i ← the_instance;
  handle_all (listeners_for name i) name.

(** [editor.fire( name )] called by the component itself. *)
Definition fire (name : string) : M unit :=
  tell (Invoke (call_fire name));;
  deliver name.

(** The body of [this.ngZone.run( ... )] that ends instance creation. *)
Definition emit_ready : M unit :=
  c ← get;
  (if config_on_instanceReady c then tell UserInstanceReady else mret tt);;
  tell (Emit Output.ready (Evt "instanceReady")).

(** [config.on.instanceReady], up to the point where it returns. The
    result tells whether [setData] was called with a completion callback
    and, if so, the value of [undo] that callback closes over. *)
Definition instanceReady (editor : E) : M (option bool) :=
  put_instance (Some (mkInstance editor []));;
  (* Read only state may change during instance initialization. *)
  c ← get;
  isReadOnly ← match _readOnly c with
               | Some b => mret (Some b)
               | None => get_readOnly
               end;
  set_readOnly isReadOnly;;
  subscribe;;
  i ← the_instance;
  let undo := Editor.undoManager (native i) in
  data ← get_data;
  match data with
  | Some _ =>
      (if undo then invoke call_lock Editor.lock else mret tt);;
      invoke (call_setData data true) (Editor.setData data);;
      mret (Some undo)
  | None => emit_ready;; mret None
  end.

(** The completion callback handed to [editor.setData] above. *)
Definition setData_callback (undo : bool) : M unit :=
  (* Locking undoManager prevents 'change' event.
     Trigger it manually to updated bound data. *)
  data ← get_data;
  content ← query call_getData Editor.getData;
  (if decide (data ≠ Some content)
   then fire (if undo then "change" else "dataReady")
   else mret tt);;
  (if undo then invoke call_unlock Editor.unlock else mret tt);;
  emit_ready.

(** [createEditor()], up to the call of the construction entry point. When
    [document.createElement] throws, nothing is appended and nothing is
    created. *)
Definition createEditor : M unit :=
  c ← get;
  if Editor.createElement (E := E) (tagName c) then
    tell (AppendChild (tagName c));;
    tell (Create (type c))
  else throw "InvalidCharacterError".

(** The first callback of [ngAfterViewInit]: the namespace was loaded. *)
Definition namespace_loaded : M unit :=
  tell (Emit Output.namespaceLoaded Namespace).

(** The [then] continuation of [ngAfterViewInit]. *)
Definition namespace_then : M unit :=
  c ← get;
  (* Check if component instance was destroyed before `ngAfterViewInit` call. *)
  if _destroyed c then mret tt
  else createEditor.

(** [ngOnDestroy()] *)
Definition ngOnDestroy : M unit :=
  put_destroyed true;;
  c ← get;
  if instance c is Some _ then
    invoke call_destroy id;;
    put_instance None
  else mret tt.

End Methods.

(** What [subscribe] registers on an editor, in order, depending on whether
    the editor has an undo manager. *)
Definition registered (undo : bool) : list (string * Handler) :=
  [ ("focus", Forward Output.focus); ("paste", Forward Output.paste);
    ("afterPaste", Forward Output.afterPaste); ("dragend", Forward Output.dragEnd);
    ("dragstart", Forward Output.dragStart); ("drop", Forward Output.drop);
    ("fileUploadRequest", Forward Output.fileUploadRequest);
    ("fileUploadResponse", Forward Output.fileUploadResponse);
    ("blur", BlurHandler); ("dataReady", PropagateChange);
    (if undo then "change" else "selectionCheck", PropagateChange) ].

(** What [propagateChange] emits for the event itself. *)
Definition forwarded (name : string) : list Effect :=
  if decide (name = "change") then [Emit Output.change (Evt name)]
  else if decide (name = "dataReady") then [Emit Output.dataReady (Evt name)]
  else [].

(** What it does when the content read differs from the cache. *)
Definition published {E} (c : t E) (newData : string) : list Effect :=
  Emit Output.dataChange (Data newData)
  :: (if onChange c then [OnChange newData] else []).

(** The last clause of C2 as it is worded: a second write of the same value
    never calls into the instance. *)
Definition second_write_as_stated : Prop :=
  ∀ (E : Type) (API : Editor.API E) (c : t E) (data : option string),
    calls (trace_of (set_data data (state_of (set_data data c)))) = [].

End Component.

(** ** The component over time

    The hooks and callbacks of one component, driven by its environment:
    Angular calls the lifecycle hooks and the property setters, the namespace
    loader and the editor call back. Which callbacks can arrive is recorded
    next to the component. A namespace that fails to load only reaches
    [window.console.error] through the [catch] and is left out; a
    [createEditor] that throws inside the continuation ends in the same
    [catch], and is recorded as thrown. *)

Module Lifecycle.
Import Component.

Record World (E : Type) := mkWorld {
  component : Component.t E;
  (* [ngAfterViewInit] ran and its [then] continuation has not run yet *)
  namespace_pending : bool;
  (* the construction entry point was called, [instanceReady] is to come *)
  creating : bool;
  (* [setData] was given a completion callback closing over this [undo] *)
  callback_pending : option bool;
  (* a handler threw *)
  thrown : bool;
  (* every effect so far, oldest first *)
  history : list Effect
}.
Arguments mkWorld {E}.
Arguments component {E}.
Arguments namespace_pending {E}.
Arguments creating {E}.
Arguments callback_pending {E}.
Arguments thrown {E}.
Arguments history {E}.

Inductive Action (E : Type) :=
| AfterViewInit                    (* Angular: ngAfterViewInit() *)
| NamespaceLoaded                  (* loader: the onNamespaceLoaded callback *)
| NamespaceResolved                (* loader: the promise resolves *)
| InstanceReady (editor : E)       (* editor: config.on.instanceReady( evt ) *)
| SetDataCallback                  (* editor: the setData completion callback *)
| Native (name : string)           (* editor: a native event *)
| Destroy                          (* Angular: ngOnDestroy() *)
| WriteData (data : option string)
| WriteReadOnly (isReadOnly : option bool).
Arguments AfterViewInit {E}.
Arguments NamespaceLoaded {E}.
Arguments NamespaceResolved {E}.
Arguments InstanceReady {E}.
Arguments SetDataCallback {E}.
Arguments Native {E}.
Arguments Destroy {E}.
Arguments WriteData {E}.
Arguments WriteReadOnly {E}.

Section Steps.
Context {E : Type} `{Editor.API E}.

Definition initial (c : Component.t E) : World E :=
  mkWorld c false false None false [].

(** Running a method of the component inside a world. *)
Definition exec {A} (m : M A) (w : World E) : World E * option A :=
  match m (component w) with
  | Ok a c tr =>
      (mkWorld c (namespace_pending w) (creating w) (callback_pending w)
               (thrown w) (history w ++ tr), Some a)
  | Throw _ c tr =>
      (mkWorld c (namespace_pending w) (creating w) (callback_pending w)
               true (history w ++ tr), None)
  end.

Definition set_namespace_pending (b : bool) (w : World E) : World E :=
  mkWorld (component w) b (creating w) (callback_pending w) (thrown w) (history w).
Definition set_creating (b : bool) (w : World E) : World E :=
  mkWorld (component w) (namespace_pending w) b (callback_pending w) (thrown w) (history w).
Definition set_callback_pending (u : option bool) (w : World E) : World E :=
  mkWorld (component w) (namespace_pending w) (creating w) u (thrown w) (history w).

(** One action of the environment. An action that cannot occur in the
    world (a callback nobody registered, an event of an editor that does
    not exist or was destroyed) leaves it as it is. *)
Definition step (w : World E) (a : Action E) : World E :=
  match a with
  | AfterViewInit => set_namespace_pending true w
  | NamespaceLoaded =>
      if namespace_pending w then (exec namespace_loaded w).1 else w
  | NamespaceResolved =>
      if namespace_pending w then
        let w1 := set_namespace_pending false w in
        let destroyed := _destroyed (component w1) in
        let (w2, created) := exec namespace_then w1 in
        (* an instance is under way unless the component was destroyed or
           [createEditor] threw, which ends in the [catch] *)
        if destroyed then w2
        else if created is Some _ then set_creating true w2 else w2
      else w
  | InstanceReady editor =>
      if creating w then
        let (w1, r) := exec (instanceReady editor) (set_creating false w) in
        match r with
        | Some pending => set_callback_pending pending w1
        | None => w1
        end
      else w
  | SetDataCallback =>
      match callback_pending w, instance (component w) with
      | Some undo, Some _ =>
          (exec (setData_callback undo) (set_callback_pending None w)).1
      | _, _ => w
      end
  | Native name =>
      if instance (component w) is Some _ then (exec (deliver name) w).1 else w
  | Destroy => (exec ngOnDestroy w).1
  | WriteData data => (exec (set_data data) w).1
  | WriteReadOnly isReadOnly => (exec (set_readOnly isReadOnly) w).1
  end.

Definition run (acts : list (Action E)) (w : World E) : World E :=
  foldl step w acts.

(** The outputs emitted in a history. *)
Definition is_output (e : Effect) : bool :=
  match e with Emit _ _ => true | _ => false end.
Definition outputs (h : list Effect) : list Effect :=
  filter (λ e, is_output e = true) h.

(** The loader's callback among the actions. *)
Definition is_namespaceLoaded (a : Action E) : bool :=
  match a with NamespaceLoaded => true | _ => false end.

(** The component was torn down before [createEditor] began. *)
Definition abandoned (w : World E) : Prop :=
  _destroyed (component w) = true
  ∧ instance (component w) = None
  ∧ creating w = false.

End Steps.

(** The claim C3 as it is worded: whenever the component has been torn down
    and has no instance yet, no instance is created and no output is emitted
    afterwards, and nothing throws. *)
Definition teardown_as_stated : Prop :=
  ∀ (E : Type) (API : Editor.API E) (c : Component.t E)
    (before after : list (Action E)),
    let w := run before (initial c) in
    let w' := run after w in
    _destroyed (component w) = true →
    instance (component w) = None →
    instance (component w') = None
    ∧ outputs (history w') = outputs (history w)
    ∧ thrown w' = thrown w.

End Lifecycle.

(** ** The sequenced data injection helper ([setDataMultipleTimes]) *)

Module TestTools.

(** Closures handed to [setTimeout]. *)
Inductive Task :=
| Push (content : string)   (* () => { editor.setData( content ); setDataHelper( ... ); } *)
| Done.                     (* done *)

(** The editor, the caller's array, the clock (in milliseconds), the timers
    set with their due times (earliest first), every [editor.setData] call
    with the time it was made, and when the promise was resolved. *)
Record Run (E : Type) := mkRun {
  editor : E;
  data : list string;
  now : Z;
  timers : list (Z * Task);
  pushes : list (Z * string);
  resolved : option Z
}.
Arguments mkRun {E}.
Arguments editor {E}.
Arguments data {E}.
Arguments now {E}.
Arguments timers {E}.
Arguments pushes {E}.
Arguments resolved {E}.

Section Helper.
Context {E : Type} `{Editor.API E}.

Definition start (e : E) (array : list string) (t0 : Z) : Run E :=
  mkRun e array t0 [] [] None.

(** Timers fire in the order of their due times, earlier calls first
    among equal ones. *)
Fixpoint enqueue (due : Z) (task : Task) (q : list (Z * Task)) : list (Z * Task) :=
  match q with
  | [] => [(due, task)]
  | (d, k) :: rest =>
      if decide (due < d) then (due, task) :: q
      else (d, k) :: enqueue due task rest
  end.

(** [setTimeout( task, delay )] *)
Definition setTimeout (task : Task) (delay : Z) (r : Run E) : Run E :=
  mkRun (editor r) (data r) (now r) (enqueue (now r + delay) task (timers r))
        (pushes r) (resolved r).

(** [editor.setData( content )] *)
Definition push (content : string) (r : Run E) : Run E :=
  mkRun (Editor.setData (Some content) (editor r)) (data r) (now r) (timers r)
        (pushes r ++ [(now r, content)]) (resolved r).

(** [res()] *)
Definition resolve (r : Run E) : Run E :=
  mkRun (editor r) (data r) (now r) (timers r) (pushes r) (Some (now r)).

(** [setDataHelper( editor, data, done )], up to its return. *)
Definition setDataHelper (r : Run E) : Run E :=
  match data r with
  | content :: rest =>
      (* const content = data.shift(); *)
      let r1 := mkRun (editor r) rest (now r) (timers r) (pushes r) (resolved r) in
      setTimeout (Push content) 100 r1
  | [] => setTimeout Done 100 r
  end.

(** [setDataMultipleTimes( editor, data )], up to its return. *)
Definition setDataMultipleTimes (r : Run E) : Run E :=
  if negb (Editor.isInline (editor r)) then
    setDataHelper r
  else
    resolve (foldl (λ acc content, push content acc) r (data r)).

Definition run_task (task : Task) (r : Run E) : Run E :=
  match task with
  | Push content => setDataHelper (push content r)
  | Done => resolve r
  end.

(** One turn of the event loop: the earliest timer fires, at its due
    time at the earliest. *)
Definition tick (r : Run E) : Run E :=
  match timers r with
  | [] => r
  | (due, task) :: rest =>
      run_task task
        (mkRun (editor r) (data r) (Z.max (now r) due) rest (pushes r) (resolved r))
  end.

Fixpoint loop (turns : nat) (r : Run E) : Run E :=
  match turns with
  | O => r
  | S n => loop n (tick r)
  end.

(** The state of the editor after the pushes of [contents], in order. *)
Definition pushed (contents : list string) (e : E) : E :=
  foldl (λ acc content, Editor.setData (Some content) acc) e contents.

(** The calls made when [contents] are pushed [step] milliseconds apart,
    the first one [step] after [t]. *)
Fixpoint spaced (t step : Z) (contents : list string) : list (Z * string) :=
  match contents with
  | [] => []
  | content :: rest => (t + step, content) :: spaced (t + step) step rest
  end.

(** The task the helper has pending after [k] turns. *)
Definition pending (contents : list string) (k : nat) : Task :=
  match contents !! k with
  | Some content => Push content
  | None => Done
  end.

End Helper.

(** The claim C7 as it is worded: the content after an inline run is the
    last string of the sequence. *)
Definition sequenced_injection_as_stated : Prop :=
  ∀ (E : Type) (API : Editor.API E) (r : Run E) (final : string),
    timers r = [] → last (data r) = Some final →
    (Editor.isInline (editor r) = true →
       let r' := setDataMultipleTimes r in
       pushes r' = pushes r ++ map (λ content, (now r, content)) (data r)
       ∧ resolved r' = Some (now r)
       ∧ Editor.getData (editor r') = final)
    ∧ (Editor.isInline (editor r) = false →
       let r' := loop (S (length (data r))) (setDataMultipleTimes r) in
       pushes r' = pushes r ++ spaced (now r) 100 (data r)
       ∧ resolved r' = Some (now r + 100 * Z.of_nat (S (length (data r))))).

End TestTools.

(** ** An editor to run the component against

    A small stand-in for the native editor: it stores what [setData] is
    given after a content filter that wraps bare text in a paragraph, the way
    the editor normalises its input. *)

Module SimpleEditor.

Record t := mk {
  content : string;
  read_only : bool;
  undo : option nat;      (* the undo manager, if loaded, and its lock depth *)
  inline : bool
}.

Definition filter (data : option string) : string :=
  match data with
  | None => ""
  | Some s => if String.prefix "<" s then s else "<p>" +:+ s +:+ "</p>"
  end.

#[global] Instance api : Editor.API t := {|
  Editor.getData e := content e;
  Editor.setData d e := mk (filter d) (read_only e) (undo e) (inline e);
  Editor.readOnly e := read_only e;
  Editor.setReadOnly r e :=
    mk (content e) (if r is Some false then false else true) (undo e) (inline e);
  Editor.undoManager e := if undo e is Some _ then true else false;
  Editor.lock e := mk (content e) (read_only e) (S <$> undo e) (inline e);
  Editor.unlock e := mk (content e) (read_only e) (pred <$> undo e) (inline e);
  Editor.isInline e := inline e;
  Editor.createElement tagName := bool_decide (tagName ≠ "");
  Editor.getData_unlock e := eq_refl
|}.

(** A classic editor with the undo plugin, an inline one without it. *)
Definition classic : t := mk "" false (Some O) false.
Definition inline_plain : t := mk "" false None true.

End SimpleEditor.

Module Fixture.
Import Component.

(** A component that has adopted a classic editor and subscribed to it; its
    cache is still [null] and the editor is empty. *)
Definition adopted : Component.t SimpleEditor.t :=
  with_instance (Some (mkInstance SimpleEditor.classic (registered true)))
    constructor.

(** A component whose instance has just been assigned, before [subscribe]. *)
Definition assigned : Component.t SimpleEditor.t :=
  with_instance (Some (mkInstance SimpleEditor.classic [])) constructor.

(** A component given the initial data ['x'], a [config.on.instanceReady]
    callback and an [onChange] callback before its editor exists. *)
Definition configured : Component.t SimpleEditor.t :=
  with_onChange true
    (with_data (Some "x") (with_config_on_instanceReady true constructor)).

End Fixture.

(** ** Runs of the mock data transfer *)

Module DataTransferRuns.
Import DataTransfer.

(** A call of one of the two mutating methods of the mock. *)
Inductive Op :=
| SetData (type data : string)
| ClearData (type : string).

Definition apply (dt : t) (op : Op) : t :=
  match op with
  | SetData type data => setData type data dt
  | ClearData type => clearData type dt
  end.

(** The mock after a run of calls, oldest first. *)
Definition after (ops : list Op) : t := foldl apply mockNativeDataTransfer ops.

(** One of the two names of the plain-text entry. *)
Definition plain_text (type : string) : Prop := type = "text/plain" ∨ type = "Text".

(** Every stored key is listed or is a name of the plain-text entry. *)
Definition stored_is_listed (dt : t) : Prop :=
  ∀ k, is_Some (_data dt !! k) → k ∈ types dt ∨ plain_text k.

End DataTransferRuns.

(** ** Looking a widget up by the id of its element ([getWidgetById]) *)

Module Widgets.

Section Lookup.
(** The parts of the editor the helper goes through: elements of the
    document by id ([editor.document.getById], [null] when there is none),
    the widget repository ([editor.widgets.getByElement], [null] when the
    element belongs to no widget, and on [null]), and the id of a widget's
    own element ([widget.element.$.id]). *)
Context {Element Widget : Type}.
Variable getById : string → option Element.
Variable getByElement : option Element → option Widget.
Variable element_id : Widget → string.

Definition getWidgetById (id : string) (byElement : bool) : option Widget :=
  let widget := getByElement (getById id) in
  match widget with
  | Some w =>
      if byElement then (if decide (element_id w = id) then Some w else None)
      else widget
  | None => widget
  end.

End Lookup.

End Widgets.

(** ** The creation of the instance as a whole *)

Module Creation.
Import Component.

Section WithEditor.
Context {E : Type} `{Editor.API E}.

(** The instance-ready handler followed, when it passed a completion
    callback to [setData], by that callback. *)
Definition created (editor : E) (c : Component.t E) : Outcome (Component.t E) unit :=
  match instanceReady editor c with
  | Ok (Some undo) c1 tr1 => prepend tr1 (setData_callback undo c1)
  | Ok None c1 tr1 => Ok tt c1 tr1
  | Throw e c1 tr1 => Throw e c1 tr1
  end.


(** How often the user's instance-ready callback is called in a trace. *)
Fixpoint userInstanceReady_calls (tr : list Effect) : nat :=
  match tr with
  | [] => O
  | UserInstanceReady :: rest => S (userInstanceReady_calls rest)
  | _ :: rest => userInstanceReady_calls rest
  end.

End WithEditor.

(** The listeners on the instance of a component, if it has one. *)
Definition wiring {E} (c : Component.t E) : option (list (string * Handler)) :=
  listeners <$> instance c.

(** What the methods that leave the latch and the listeners alone keep. *)
Definition kept {E} (c c' : Component.t E) : Prop :=
  _destroyed c' = _destroyed c ∧ wiring c' = wiring c.

(** The component listens with the listeners of [subscribe] or not at all. *)
Definition wired {E} (c : Component.t E) : Prop :=
  ∀ l, wiring c = Some l → ∃ undo, l = registered undo.

(** The native events [subscribe] forwards as they are, with the output each
    one is emitted on. *)
Definition forwards : list (string * Output.t) :=
  [ ("focus", Output.focus); ("paste", Output.paste);
    ("afterPaste", Output.afterPaste); ("dragend", Output.dragEnd);
    ("dragstart", Output.dragStart); ("drop", Output.drop);
    ("fileUploadRequest", Output.fileUploadRequest);
    ("fileUploadResponse", Output.fileUploadResponse) ].

(** The teardown among the actions. *)
Definition is_destroy {E} (a : Lifecycle.Action E) : bool :=
  match a with Lifecycle.Destroy => true | _ => false end.

(** The hooks and callbacks of a creation, in order, with no native event
    between them. *)
Definition creation {E} (editor : E) : list (Lifecycle.Action E) :=
  [ Lifecycle.AfterViewInit; Lifecycle.NamespaceLoaded; Lifecycle.NamespaceResolved;
    Lifecycle.InstanceReady editor; Lifecycle.SetDataCallback ].

(** The claim C4 as it is worded, over the runs in which native events reach
    the component between the instance-ready handler and the completion
    callback: if the content of the instance differs from the supplied
    value [d] when the callback runs, the callback fires a synthetic event. *)
Definition initial_data_as_stated : Prop :=
  ∀ (E : Type) (API : Editor.API E) (c : Component.t E) (editor : E) (d : string)
    (between : list string),
    _data c = Some d →
    instance c = None →
    let w1 := Lifecycle.run
                ([Lifecycle.AfterViewInit; Lifecycle.NamespaceResolved;
                  Lifecycle.InstanceReady editor] ++ map Lifecycle.Native between)
                (Lifecycle.initial c) in
    let w2 := Lifecycle.step w1 Lifecycle.SetDataCallback in
    ∀ i, instance (Lifecycle.component w1) = Some i →
         Editor.getData (native i) ≠ d →
         ∃ name, Invoke (call_fire name) ∈ Lifecycle.history w2.

End Creation.

(** * Properties *)

Module DataTransferFacts.
Import DataTransfer.

Lemma indexOf_from_notin (l : list string) (x : string) (i : Z) :
  x ∉ l → indexOf_from l x i = -1.
Proof.
  revert i. induction l as [|y l IH]; intros i Hx; simpl; [done|].
  apply not_elem_of_cons in Hx as [Hne Hx].
  destruct (decide (y = x)); [congruence | by apply IH].
Qed.

Lemma indexOf_from_first (l1 l2 : list string) (x : string) (i : Z) :
  x ∉ l1 → indexOf_from (l1 ++ x :: l2) x i = i + Z.of_nat (length l1).
Proof.
  revert i. induction l1 as [|y l1 IH]; intros i Hx; simpl.
  - destruct (decide (x = x)); [lia | done].
  - apply not_elem_of_cons in Hx as [Hne Hx].
    destruct (decide (y = x)); [congruence|].
    rewrite IH by done. lia.
Qed.

Lemma indexOf_from_lower (l : list string) (x : string) (i : Z) :
  indexOf_from l x i = -1 ∨ i ≤ indexOf_from l x i.
Proof.
  revert i. induction l as [|y l IH]; intros i; simpl; [by left|].
  destruct (decide (y = x)); [right; lia|].
  destruct (IH (i + 1)) as [->|?]; [by left | right; lia].
Qed.

(** Splitting a list at the first occurrence of an element. *)
Lemma first_occurrence (l : list string) (x : string) :
  x ∈ l → ∃ l1 l2, l = l1 ++ x :: l2 ∧ x ∉ l1.
Proof.
  induction l as [|y l IH]; intros Hx; [by apply elem_of_nil in Hx|].
  destruct (decide (y = x)) as [->|Hne].
  - exists [], l. split; [done | apply not_elem_of_nil].
  - apply elem_of_cons in Hx as [->|Hx]; [done|].
    destruct (IH Hx) as (l1 & l2 & -> & Hn).
    exists (y :: l1), l2. split; [done|].
    apply not_elem_of_cons. split; [congruence | done].
Qed.

Lemma splice1_middle (l1 l2 : list string) (x : string) :
  splice1 (l1 ++ x :: l2) (Z.of_nat (length l1)) = l1 ++ l2.
Proof.
  unfold splice1. rewrite Nat2Z.id.
  induction l1 as [|y l1 IH]; simpl; [done | by rewrite IH].
Qed.

Lemma clearData_absent (type : string) (dt : t) :
  type ∉ types dt → clearData type dt = dt.
Proof.
  intros Hn. unfold clearData, indexOf.
  rewrite indexOf_from_notin by done. by case_decide.
Qed.

Lemma clearData_present (type : string) (dt : t) (l1 l2 : list string) :
  types dt = l1 ++ type :: l2 → type ∉ l1 →
  clearData type dt = {| types := l1 ++ l2; _data := delete type (_data dt) |}.
Proof.
  intros Heq Hn. unfold clearData, indexOf. rewrite Heq.
  rewrite indexOf_from_first by done. rewrite Z.add_0_l.
  case_decide; [|lia]. by rewrite splice1_middle.
Qed.

Lemma types_setData_all (calls : list (string * string)) (dt : t) :
  types (setData_all calls dt) = types dt ++ calls.*1.
Proof.
  revert dt. induction calls as [|[ty d] calls IH]; intros dt; simpl.
  - by rewrite app_nil_r.
  - unfold setData_all in *. simpl. rewrite IH. simpl.
    by rewrite <- app_assoc.
Qed.

Lemma getData_setData_alias (type data : string) (dt : t) :
  type = "text/plain" ∨ type = "Text" →
  getData "text/plain" (setData type data dt) = Some data
  ∧ getData "Text" (setData type data dt) = Some data.
Proof.
  intros Halias. unfold getData, setData. simpl.
  case_decide; [|done]. by simplify_map_eq.
Qed.

Lemma getData_clearData_other (type k : string) (dt : t) :
  k ≠ type → getData k (clearData type dt) = getData k dt.
Proof.
  intros Hne. unfold getData, clearData.
  case_decide; simpl; [by rewrite lookup_delete_ne | done].
Qed.

(** C6, as stated, fails: [clearData('Text')] deletes the stored key
    ['Text'] only, so ['text/plain'] still reads ['hello'] afterwards. *)
Lemma C6_clearData_keeps_alias_entry : ¬ scenario_as_stated.
Proof.
  unfold scenario_as_stated. intros (_ & Hgone & _).
  vm_compute in Hgone. discriminate Hgone.
Qed.

(** C6, amended: after [setData('Text', 'hello')], [getData('text/plain')]
    returns ['hello']; a subsequent [clearData('Text')] removes the stored
    ['Text'] entry and the ['Text'] list entry (the list, which never held
    ['text/plain'], is empty), while the mirrored ['text/plain'] entry
    stays readable. *)
Theorem C6_mock_transfer_scenario :
  let dt1 := setData "Text" "hello" mockNativeDataTransfer in
  let dt2 := clearData "Text" dt1 in
  getData "text/plain" dt1 = Some "hello"
  ∧ getData "Text" dt1 = Some "hello"
  ∧ types dt1 = ["Text"]
  ∧ getData "Text" dt2 = None
  ∧ getData "text/plain" dt2 = Some "hello"
  ∧ types dt2 = [].
Proof.
  simpl. destruct (getData_setData_alias "Text" "hello" mockNativeDataTransfer)
    as [Hplain Htext]; [by right|].
  rewrite (clearData_present "Text" _ [] []); [|done|apply not_elem_of_nil].
  unfold getData in *. simpl.
  rewrite lookup_delete_eq, lookup_delete_ne by done.
  by split_and!.
Qed.

(** C10: from a fresh mock the type list is exactly the types passed to
    [setData], in call order; a write of ['text/plain'] or ['Text'] is
    stored under both keys but appends only the type passed; writing a type
    twice appends it twice; [clearData] removes the first occurrence of the
    type from the list and nothing else (nothing at all when the type is
    not listed), and deletes no stored key other than the one passed. *)
Theorem C10_type_list_tracks_setData_calls :
  (∀ calls : list (string * string),
      types (setData_all calls mockNativeDataTransfer) = calls.*1)
  ∧ (∀ (type data : string) (dt : t),
      types (setData type data dt) = types dt ++ [type])
  ∧ (∀ (type data : string) (dt : t),
      type = "text/plain" ∨ type = "Text" →
      getData "text/plain" (setData type data dt) = Some data
      ∧ getData "Text" (setData type data dt) = Some data)
  ∧ (∀ (type d1 d2 : string) (dt : t),
      types (setData type d2 (setData type d1 dt)) = types dt ++ [type; type])
  ∧ (∀ (type : string) (dt : t),
      (type ∉ types dt → clearData type dt = dt)
      ∧ (type ∈ types dt →
         ∃ l1 l2, types dt = l1 ++ type :: l2 ∧ (type ∉ l1)
                  ∧ types (clearData type dt) = l1 ++ l2
                  ∧ _data (clearData type dt) = delete type (_data dt))
      ∧ (∀ k, k ≠ type → getData k (clearData type dt) = getData k dt)).
Proof.
  split_and!.
  - intros calls. by rewrite types_setData_all.
  - done.
  - apply getData_setData_alias.
  - intros. simpl. by rewrite <- app_assoc.
  - intros type dt. split_and!.
    + apply clearData_absent.
    + intros Hin. destruct (first_occurrence _ _ Hin) as (l1 & l2 & Heq & Hn).
      exists l1, l2. by rewrite (clearData_present _ _ _ _ Heq Hn).
    + intros k. apply getData_clearData_other.
Qed.

(** The clauses of C10 at a concrete payload: ['Text'] written twice, then
    cleared once. *)
Lemma C10_type_list_witness :
  let dt := setData "Text" "b" (setData "Text" "a" mockNativeDataTransfer) in
  (getData "text/plain" dt = Some "b" ∧ getData "Text" dt = Some "b")
  ∧ (∃ l1 l2, types dt = l1 ++ "Text" :: l2 ∧ ("Text" ∉ l1)
              ∧ types (clearData "Text" dt) = l1 ++ l2
              ∧ _data (clearData "Text" dt) = delete "Text" (_data dt))
  ∧ clearData "URL" dt = dt
  ∧ getData "text/plain" (clearData "Text" dt) = getData "text/plain" dt.
Proof.
  destruct C10_type_list_tracks_setData_calls as (_ & _ & Halias & _ & Hclear).
  intros dt. destruct (Hclear "Text" dt) as (_ & Hpresent & Hother).
  destruct (Hclear "URL" dt) as (Habsent & _ & _).
  split; [|split; [|split]].
  - apply Halias. by right.
  - apply Hpresent. vm_compute. apply list_elem_of_here.
  - apply Habsent. vm_compute. intros H.
    repeat (apply elem_of_cons in H as [H|H]; [discriminate H|]).
    by apply elem_of_nil in H.
  - apply Hother. discriminate.
Defined.

End DataTransferFacts.

Module ComponentFacts.
Import Component Fixture.

(** Unfolding the plumbing of [M]. *)
Ltac unfold_monad :=
  unfold invoke, query, the_instance, get, tell, throw,
    put_data, put_readOnly, put_destroyed, put_instance,
    put_onChange, put_onTouched;
  unfold mbind, M_bind, mret, M_ret; cbn.

Section WithEditor.
Context {E : Type} `{Editor.API E}.

(** Running [m] first and [f] on its result. *)
Lemma bind_run {A B} (m : M A) (f : A → M B) (c : Component.t E) a c1 tr1 :
  m c = Ok a c1 tr1 → (m ≫= f) c = prepend tr1 (f a c1).
Proof. intros Hm. unfold mbind, M_bind. by rewrite Hm. Qed.

Lemma bind_throws {A B} (m : M A) (f : A → M B) (c : Component.t E) e c1 tr1 :
  m c = Throw e c1 tr1 → (m ≫= f) c = Throw e c1 tr1.
Proof. intros Hm. unfold mbind, M_bind. by rewrite Hm. Qed.

Lemma the_instance_runs (c : Component.t E) (i : Instance E) :
  instance c = Some i → the_instance c = Ok i c [].
Proof. intros Hi. unfold the_instance. unfold_monad. by rewrite Hi. Qed.

Lemma invoke_runs (c : Component.t E) (i : Instance E) (call : Call) (f : E → E) :
  instance c = Some i →
  invoke call f c
  = Ok tt (with_instance (Some (mkInstance (f (native i)) (listeners i))) c)
       [Invoke call].
Proof. intros Hi. unfold invoke. unfold_monad. by repeat (rewrite Hi; cbn). Qed.

Lemma query_runs {A} (c : Component.t E) (i : Instance E) (call : Call) (f : E → A) :
  instance c = Some i → query call f c = Ok (f (native i)) c [Invoke call].
Proof. intros Hi. unfold query. unfold_monad. by repeat (rewrite Hi; cbn). Qed.

(** One step through a [bind] whose first part is known to return. *)
Ltac step_with H := rewrite (bind_run _ _ _ _ _ _ H); cbn [prepend].

(** The same, the first part being run by [tac]. *)
Ltac step_by tac :=
  match goal with
  | |- context [ mbind ?f ?m ?c ] =>
      let Hm := fresh "Hm" in
      eassert (Hm : m c = Ok _ _ _) by tac;
      rewrite (bind_run m f c _ _ _ Hm); clear Hm; cbn [prepend]
  end.
Ltac step := step_by ltac:(reflexivity).

Lemma get_runs (c : Component.t E) : get c = Ok c c [].
Proof. reflexivity. Qed.

Lemma tell_runs (e : Effect) (c : Component.t E) : tell e c = Ok tt c [e].
Proof. reflexivity. Qed.

Lemma mret_runs {A} (a : A) (c : Component.t E) : (mret a : M A) c = Ok a c [].
Proof. reflexivity. Qed.

Lemma put_instance_runs (i : option (Instance E)) (c : Component.t E) :
  put_instance i c = Ok tt (with_instance i c) [].
Proof. reflexivity. Qed.

Lemma put_data_runs (d : option string) (c : Component.t E) :
  put_data d c = Ok tt (with_data d c) [].
Proof. reflexivity. Qed.

Lemma on_runs (c : Component.t E) (i : Instance E) (name : string) (h : Handler) :
  instance c = Some i →
  on name h c
  = Ok tt (with_instance
             (Some (mkInstance (native i) (listeners i ++ [(name, h)]))) c)
       [Invoke (call_on name h)].
Proof. intros Hi. unfold on. unfold_monad. by repeat (rewrite Hi; cbn). Qed.

Lemma propagateChange_runs (c : Component.t E) (i : Instance E) (name : string) :
  instance c = Some i →
  let newData := Editor.getData (native i) in
  propagateChange name c
  = if decide (Some newData = _data c)
    then Ok tt c (Invoke call_getData :: forwarded name)
    else Ok tt (with_data (Some newData) c)
            (Invoke call_getData :: forwarded name ++ published c newData).
Proof.
  intros Hi newData. unfold propagateChange, forwarded, published.
  step_by ltac:(apply query_runs; exact Hi). fold newData.
  assert (Hfw : ∃ tr, forwarded name = tr ∧
    (if decide (name = "change") then tell (Emit Output.change (Evt name))
     else if decide (name = "dataReady") then tell (Emit Output.dataReady (Evt name))
     else mret tt) c = Ok tt c tr).
  { unfold forwarded. eexists. split; [reflexivity|]. by repeat case_decide. }
  destruct Hfw as (tr & Htr & Hrun). unfold forwarded in Htr. rewrite Htr.
  step_with Hrun. unfold get_data. step_by ltac:(step; reflexivity).
  destruct (decide (Some newData = _data c)) as [Hsame|Hdiff].
  - unfold_monad. by rewrite app_nil_r.
  - step. step. step. cbn [onChange with_data].
    destruct (onChange c); cbn; by rewrite ?app_nil_r.
Qed.

(** Without an instance the handler throws before it emits anything. *)
Lemma propagateChange_without_instance (c : Component.t E) (name : string) :
  instance c = None → propagateChange name c = Throw "TypeError" c [].
Proof.
  intros Hi. unfold propagateChange, query.
  assert (Hthrow : the_instance c = Throw "TypeError" c []).
  { unfold the_instance. unfold_monad. by rewrite Hi. }
  by rewrite (bind_throws _ _ _ _ _ _ (bind_throws _ _ _ _ _ _ Hthrow)).
Qed.

(** C1: at every run of [propagateChange] on a component that has its
    instance, [dataChange] emits if and only if the content just read
    from the editor differs from the cached value; then the cache holds
    the new content, [dataChange] carries it and the registered
    [onChange] callback, if any, is called with it. Whether or not the
    content changed, [change] emits exactly when the event is named
    ['change'] and [dataReady] exactly when it is named ['dataReady']. *)
Theorem C1_propagateChange_emissions
    (c : Component.t E) (i : Instance E) (name : string) :
  instance c = Some i →
  let newData := Editor.getData (native i) in
  ∃ c' tr,
    propagateChange name c = Ok tt c' tr
    ∧ emissions Output.dataChange tr
      = (if decide (Some newData = _data c) then [] else [Data newData])
    ∧ c' = (if decide (Some newData = _data c) then c
            else with_data (Some newData) c)
    ∧ (OnChange newData ∈ tr ↔ Some newData ≠ _data c ∧ onChange c = true)
    ∧ emissions Output.change tr
      = (if decide (name = "change") then [Evt name] else [])
    ∧ emissions Output.dataReady tr
      = (if decide (name = "dataReady") then [Evt name] else []).
Proof.
  intros Hi newData. rewrite (propagateChange_runs c i name Hi). fold newData.
  unfold forwarded, published.
  destruct (decide (name = "change")) as [->|Hchange];
    try destruct (decide (name = "dataReady")) as [->|Hready];
    destruct (decide (Some newData = _data c)) as [Hsame|Hdiff];
    try destruct (onChange c) eqn:Hcb;
    eexists _, _; (split; [reflexivity|]); cbn;
    split_and!; try reflexivity;
    rewrite ?elem_of_cons, ?elem_of_nil; intuition congruence.
Qed.

(** C2, amended: a write of the cached value is a complete no-op; any
    other write, when an instance exists, calls [setData] on it exactly
    once with the written value and then caches what [getData] returns;
    without an instance the value is only cached. Writing the same
    string a second time makes no call into the instance provided the
    first write left that very string in the cache, which is so when no
    instance exists or when the instance serializes the written string
    unchanged. *)
Theorem C2_set_data_write (c : Component.t E) (data : option string) :
  (data = _data c → set_data data c = Ok tt c [])
  ∧ (data ≠ _data c → ∀ i, instance c = Some i →
       let native' := Editor.setData data (native i) in
       set_data data c
       = Ok tt (with_data (Some (Editor.getData native'))
                  (with_instance (Some (mkInstance native' (listeners i))) c))
            [Invoke (call_setData data false); Invoke call_getData])
  ∧ (data ≠ _data c → instance c = None →
       set_data data c = Ok tt (with_data data c) [])
  ∧ (let c1 := state_of (set_data data c) in
     (_data c1 = data → set_data data c1 = Ok tt c1 [])
     ∧ (instance c = None → _data c1 = data)
     ∧ (∀ i, instance c = Some i →
          Some (Editor.getData (Editor.setData data (native i))) = data →
          _data c1 = data)).
Proof.
  assert (Hsame : ∀ c0 : Component.t E,
             data = _data c0 → set_data data c0 = Ok tt c0 []).
  { intros c0 Heq. unfold set_data. unfold_monad.
    by rewrite decide_True by done. }
  assert (Hinst : data ≠ _data c → ∀ i, instance c = Some i →
       set_data data c
       = Ok tt (with_data (Some (Editor.getData (Editor.setData data (native i))))
                  (with_instance
                     (Some (mkInstance (Editor.setData data (native i)) (listeners i))) c))
            [Invoke (call_setData data false); Invoke call_getData]).
  { intros Hne i Hi. unfold set_data. unfold_monad.
    rewrite decide_False by done. by repeat (rewrite Hi; cbn). }
  assert (Hnone : data ≠ _data c → instance c = None →
       set_data data c = Ok tt (with_data data c) []).
  { intros Hne Hi. unfold set_data. unfold_monad.
    rewrite decide_False by done. by rewrite Hi. }
  split; [by apply Hsame|]. split; [done|]. split; [done|].
  intros c1. subst c1. split_and!.
  - intros Heq. by apply Hsame.
  - intros Hi. destruct (decide (data = _data c)) as [Heq|Hne].
    + by rewrite Hsame.
    + by rewrite Hnone.
  - intros i Hi Hfix. destruct (decide (data = _data c)) as [Heq|Hne].
    + by rewrite Hsame.
    + by rewrite (Hinst Hne i Hi).
Qed.

(** The read-only setter and getter, without and with an instance. *)
Lemma set_readOnly_pending (c : Component.t E) (v : option bool) :
  instance c = None → set_readOnly v c = Ok tt (with_readOnly v c) [].
Proof. intros Hi. unfold set_readOnly. unfold_monad. by repeat (rewrite Hi; cbn). Qed.

Lemma set_readOnly_delegates (c : Component.t E) (i : Instance E) (v : option bool) :
  instance c = Some i →
  set_readOnly v c
  = Ok tt (with_instance
             (Some (mkInstance (Editor.setReadOnly v (native i)) (listeners i))) c)
       [Invoke (call_setReadOnly v)].
Proof. intros Hi. unfold set_readOnly. unfold_monad. by repeat (rewrite Hi; cbn). Qed.

Lemma get_readOnly_pending (c : Component.t E) :
  instance c = None → get_readOnly c = Ok (_readOnly c) c [].
Proof. intros Hi. unfold get_readOnly. unfold_monad. by repeat (rewrite Hi; cbn). Qed.

Lemma get_readOnly_delegates (c : Component.t E) (i : Instance E) :
  instance c = Some i →
  get_readOnly c = Ok (Some (Editor.readOnly (native i))) c [].
Proof. intros Hi. unfold get_readOnly. unfold_monad. by repeat (rewrite Hi; cbn). Qed.

Lemma subscribe_registers (c : Component.t E) (i : Instance E) :
  instance c = Some i →
  let undo := Editor.undoManager (native i) in
  subscribe c
  = Ok tt (with_instance
             (Some (mkInstance (native i) (listeners i ++ registered undo))) c)
       (map (λ l, Invoke (call_on l.1 l.2)) (registered undo)).
Proof.
  intros Hi undo. unfold subscribe.
  step_with (on_runs c i "focus" (Forward Output.focus) Hi).
  do 9 (step_by ltac:(apply on_runs; reflexivity); cbn [native listeners]).
  step_by ltac:(apply the_instance_runs; reflexivity).
  cbn [native listeners]. fold undo.
  destruct undo; erewrite on_runs by reflexivity;
    cbn [prepend native listeners with_instance app];
    rewrite <- !app_assoc; reflexivity.
Qed.

(** C8: when [subscribe] runs on a freshly adopted instance, the method
    [propagateChange] is bound to ['dataReady'] whether or not an undo
    manager exists, to ['change'] exactly when the undo manager exists and to
    ['selectionCheck'] exactly when it does not, and to no other event; so it
    is never bound to both ['change'] and ['selectionCheck']. *)
Theorem C8_subscribe_binds_propagateChange (c : Component.t E) (i : Instance E) :
  instance c = Some i → listeners i = [] →
  let undo := Editor.undoManager (native i) in
  ∃ c' i' tr,
    subscribe c = Ok tt c' tr
    ∧ instance c' = Some i'
    ∧ listeners_for "dataReady" i' = [PropagateChange]
    ∧ listeners_for "change" i' = (if undo then [PropagateChange] else [])
    ∧ listeners_for "selectionCheck" i' = (if undo then [] else [PropagateChange])
    ∧ (∀ name, PropagateChange ∈ listeners_for name i'
               ↔ name = "dataReady"
                 ∨ (name = "change" ∧ undo = true)
                 ∨ (name = "selectionCheck" ∧ undo = false))
    ∧ ¬ (PropagateChange ∈ listeners_for "change" i'
         ∧ PropagateChange ∈ listeners_for "selectionCheck" i').
Proof.
  intros Hi Hfresh undo.
  exists (with_instance (Some (mkInstance (native i) (registered undo))) c),
    (mkInstance (native i) (registered undo)),
    (map (λ l, Invoke (call_on l.1 l.2)) (registered undo)).
  split. { rewrite (subscribe_registers c i Hi), Hfresh. reflexivity. }
  split; [reflexivity|].
  assert (Hall : ∀ name, PropagateChange ∈ listeners_for name
                     (mkInstance (native i) (registered undo))
               ↔ name = "dataReady"
                 ∨ (name = "change" ∧ undo = true)
                 ∨ (name = "selectionCheck" ∧ undo = false)).
  { intros name. unfold listeners_for. rewrite list_elem_of_fmap. split.
    - intros ([n h] & Hh & Hin). apply list_elem_of_filter in Hin as [Hn Hin].
      cbn in *. subst h n. apply list_elem_of_In in Hin.
      unfold registered in Hin. simpl in Hin.
      destruct undo; intuition (try congruence);
        match goal with Heq : (_, _) = (_, _) |- _ => injection Heq as <- end;
        auto.
    - intros Hname. exists (name, PropagateChange). split; [done|].
      apply list_elem_of_filter. split; [done|]. apply list_elem_of_In.
      unfold registered. simpl.
      destruct Hname as [->|[[-> ->]|[-> ->]]]; auto 20. }
  split_and!.
  - by destruct undo.
  - by destruct undo.
  - by destruct undo.
  - exact Hall.
  - rewrite !Hall. intros [[?|[[_ Ht]|[? _]]] [?|[[? _]|[_ Hf]]]]; congruence.
Qed.

(** [this._readOnly !== null ? this._readOnly : this.instance.readOnly] *)
Lemma resolved_readOnly_runs
    (pending : option bool) (c : Component.t E) (i : Instance E) :
  instance c = Some i →
  (match pending with
   | Some b => mret (Some b)
   | None => get_readOnly
   end) c
  = Ok (Some (default (Editor.readOnly (native i)) pending)) c [].
Proof.
  intros Hi. destruct pending; [reflexivity|].
  by apply get_readOnly_delegates.
Qed.

(** The instance-ready handler, spelled out: the read-only state is
    resolved and applied, the listeners are registered, and then either the
    initial data is pushed under a locked undo manager or [ready] is emitted
    at once. *)
Lemma instanceReady_runs (c : Component.t E) (editor : E) :
  let isReadOnly := Some (default (Editor.readOnly editor) (_readOnly c)) in
  let e1 := Editor.setReadOnly isReadOnly editor in
  let undo := Editor.undoManager e1 in
  let subscribed := map (λ l, Invoke (call_on l.1 l.2)) (registered undo) in
  instanceReady editor c
  = match _data c with
    | Some d =>
        Ok (Some undo)
           (with_instance
              (Some (mkInstance
                       (Editor.setData (Some d) (if undo then Editor.lock e1 else e1))
                       (registered undo))) c)
           (Invoke (call_setReadOnly isReadOnly) :: subscribed
            ++ (if undo then [Invoke call_lock] else [])
            ++ [Invoke (call_setData (Some d) true)])
    | None =>
        Ok None
           (with_instance (Some (mkInstance e1 (registered undo))) c)
           (Invoke (call_setReadOnly isReadOnly) :: subscribed
            ++ (if config_on_instanceReady c then [UserInstanceReady] else [])
            ++ [Emit Output.ready (Evt "instanceReady")])
    end.
Proof.
  intros isReadOnly e1 undo subscribed. unfold instanceReady.
  step. step. cbn [_readOnly with_instance].
  step_by ltac:(apply (resolved_readOnly_runs _ _ (mkInstance editor [])); reflexivity).
  cbn [native _readOnly with_instance]. fold isReadOnly.
  step_by ltac:(apply set_readOnly_delegates; reflexivity).
  cbn [native listeners with_instance]. fold e1.
  step_by ltac:(apply subscribe_registers; reflexivity).
  cbn [native listeners with_instance app]. fold undo. fold subscribed.
  step_by ltac:(apply the_instance_runs; reflexivity).
  step. cbn [native _data with_instance]. fold undo.
  destruct (_data c) as [d|].
  - destruct undo.
    + step_by ltac:(apply invoke_runs; reflexivity).
      step_by ltac:(apply invoke_runs; reflexivity).
      cbn. reflexivity.
    + step. step_by ltac:(apply invoke_runs; reflexivity).
      cbn. reflexivity.
  - unfold emit_ready.
    destruct (config_on_instanceReady c) eqn:Hcb.
    + step_by ltac:(step; cbn [config_on_instanceReady with_instance];
                    rewrite Hcb; step; reflexivity).
      cbn. reflexivity.
    + step_by ltac:(step; cbn [config_on_instanceReady with_instance];
                    rewrite Hcb; step; reflexivity).
      cbn. reflexivity.
Qed.



Lemma emit_ready_runs (c : Component.t E) :
  emit_ready c
  = Ok tt c ((if config_on_instanceReady c then [UserInstanceReady] else [])
             ++ [Emit Output.ready (Evt "instanceReady")]).
Proof.
  unfold emit_ready. step.
  destruct (config_on_instanceReady c); by step.
Qed.

(** A synthetic event fired on an editor whose listeners are those of
    [subscribe] reaches [propagateChange], and only it. *)
Lemma fire_reaches_propagateChange (c : Component.t E) (i : Instance E) (undo : bool) :
  instance c = Some i → listeners i = registered undo →
  let name := if undo then "change" else "dataReady" in
  fire name c = prepend [Invoke (call_fire name)] (propagateChange name c).
Proof.
  intros Hi Hl name. unfold fire. step. unfold deliver.
  step_by ltac:(apply the_instance_runs; exact Hi).
  assert (Hfor : listeners_for name i = [PropagateChange]).
  { unfold listeners_for. rewrite Hl. subst name. by destruct undo. }
  rewrite Hfor. cbn [handle_all handle].
  destruct (propagateChange name c) as [[] c' tr|e c' tr] eqn:Hp.
  - step_with Hp. cbn. by rewrite app_nil_r.
  - by rewrite (bind_throws _ _ _ _ _ _ Hp).
Qed.

(** The completion callback, spelled out, on an instance whose listeners are
    those of [subscribe]. *)
Lemma setData_callback_runs (c : Component.t E) (i : Instance E) (undo : bool) :
  instance c = Some i → listeners i = registered undo →
  let content := Editor.getData (native i) in
  let name := if undo then "change" else "dataReady" in
  let unlocked (c0 : Component.t E) :=
    if undo
    then with_instance (Some (mkInstance (Editor.unlock (native i)) (listeners i))) c0
    else c0 in
  let finish :=
    (if undo then [Invoke call_unlock] else [])
    ++ (if config_on_instanceReady c then [UserInstanceReady] else [])
    ++ [Emit Output.ready (Evt "instanceReady")] in
  setData_callback undo c
  = if decide (_data c = Some content)
    then Ok tt (unlocked c) (Invoke call_getData :: finish)
    else Ok tt (unlocked (with_data (Some content) c))
            (Invoke call_getData :: Invoke (call_fire name) :: Invoke call_getData
             :: forwarded name ++ published c content ++ finish).
Proof.
  intros Hi Hl content name unlocked finish. unfold setData_callback, get_data.
  step_by ltac:(step; reflexivity).
  step_by ltac:(apply query_runs; exact Hi). fold content.
  destruct (decide (_data c = Some content)) as [Hsame|Hdiff].
  - rewrite decide_False by (intros Hne; by apply Hne).
    step. subst unlocked finish. destruct undo.
    + step_by ltac:(apply invoke_runs; exact Hi).
      rewrite emit_ready_runs. reflexivity.
    + step. rewrite emit_ready_runs. reflexivity.
  - rewrite decide_True by done.
    pose proof (fire_reaches_propagateChange c i undo Hi Hl) as Hfire.
    cbn zeta in Hfire. fold name in Hfire.
    rewrite (propagateChange_runs c i name Hi) in Hfire. fold content in Hfire.
    rewrite decide_False in Hfire by congruence. cbn [prepend] in Hfire.
    step_with Hfire. subst unlocked finish. destruct undo.
    + step_by ltac:(apply invoke_runs; exact Hi).
      rewrite emit_ready_runs. cbn [prepend with_data with_instance
        config_on_instanceReady app]. by rewrite <- !app_assoc.
    + step. rewrite emit_ready_runs. cbn [prepend with_data with_instance
        config_on_instanceReady app]. by rewrite <- !app_assoc.
Qed.

(** C4, amended: when the instance becomes ready and a non-null initial value
    [d] is cached, the handler locks the undo manager if there is one and
    calls [setData] with [d] and a completion callback, emitting nothing
    yet and leaving [d] in the cache. Whenever the callback runs afterwards,
    it reads the content and compares it with the value cached at that
    moment, which is [d] only as long as no native event has brought the
    cache up to date: if the two differ it fires ['change'], or ['dataReady']
    without an undo manager, which reaches [propagateChange]; if they are
    equal it fires nothing. It then unlocks the undo manager, and only after
    that calls the user's instance-ready callback, if any, and emits
    [ready]. When it returns, the cached value is the instance's serialized
    content. *)
Theorem C4_callback_compares_cache
    (c : Component.t E) (editor : E) (d : string) :
  _data c = Some d →
  ∃ undo c1 i1 tr1,
    instanceReady editor c = Ok (Some undo) c1 tr1
    ∧ instance c1 = Some i1
    ∧ listeners i1 = registered undo
    ∧ _data c1 = Some d
    ∧ config_on_instanceReady c1 = config_on_instanceReady c
    ∧ (∃ isReadOnly,
         tr1 = Invoke (call_setReadOnly isReadOnly)
               :: map (λ l, Invoke (call_on l.1 l.2)) (registered undo)
               ++ (if undo then [Invoke call_lock] else [])
               ++ [Invoke (call_setData (Some d) true)])
    ∧ ∀ (c' : Component.t E) (i' : Instance E),
        (* the component at the time the callback runs *)
        instance c' = Some i' →
        listeners i' = registered undo →
        config_on_instanceReady c' = config_on_instanceReady c →
        let content := Editor.getData (native i') in
        let name := if undo then "change" else "dataReady" in
        ∃ c2 i2 tr2,
          setData_callback undo c' = Ok tt c2 tr2
          ∧ tr2 = Invoke call_getData
                  :: (if decide (_data c' = Some content) then []
                      else [ Invoke (call_fire name); Invoke call_getData;
                             Emit (if undo then Output.change else Output.dataReady)
                                  (Evt name);
                             Emit Output.dataChange (Data content) ]
                           ++ (if onChange c' then [OnChange content] else []))
                  ++ (if undo then [Invoke call_unlock] else [])
                  ++ (if config_on_instanceReady c then [UserInstanceReady] else [])
                  ++ [Emit Output.ready (Evt "instanceReady")]
          ∧ instance c2 = Some i2
          ∧ _data c2 = Some (Editor.getData (native i2)).
Proof.
  intros Hd. pose proof (instanceReady_runs c editor) as Hready.
  cbn zeta in Hready. rewrite Hd in Hready.
  set (isReadOnly := Some (default (Editor.readOnly editor) (_readOnly c))) in *.
  set (e1 := Editor.setReadOnly isReadOnly editor) in *.
  set (undo := Editor.undoManager e1) in *.
  set (e2 := Editor.setData (Some d) (if undo then Editor.lock e1 else e1)) in *.
  exists undo. eexists. exists (mkInstance e2 (registered undo)). eexists.
  split; [exact Hready|]. split; [reflexivity|]. split; [reflexivity|].
  split; [exact Hd|]. split; [reflexivity|]. split; [by exists isReadOnly|].
  clearbody undo. clear Hready.
  intros c' i' Hi Hl Hconfig content name.
  pose proof (setData_callback_runs c' i' undo Hi Hl) as Hcb.
  cbn zeta in Hcb. fold content in Hcb. rewrite Hconfig in Hcb.
  destruct (decide (_data c' = Some content)) as [Hsame|Hdiff].
  - eexists. exists (mkInstance (if undo then Editor.unlock (native i') else native i')
                                (listeners i')).
    eexists. split; [exact Hcb|]. split; [reflexivity|].
    destruct undo; cbn [instance _data with_instance native].
    + split; [reflexivity|]. by rewrite Editor.getData_unlock.
    + split; [by rewrite Hi; destruct i'|exact Hsame].
  - eexists. exists (mkInstance (if undo then Editor.unlock (native i') else native i')
                                (listeners i')).
    eexists. split; [exact Hcb|].
    split; [subst name; by destruct undo|].
    destruct undo; cbn [instance _data with_instance with_data native].
    + split; [reflexivity|]. by rewrite Editor.getData_unlock.
    + split; [by rewrite Hi; destruct i'|reflexivity].
Qed.

(** C5: before the instance exists a write to the read-only flag is stored
    in the component, with no call made, and a read returns the stored value.
    When the instance becomes ready [setReadOnly] is called on it exactly
    once, first of all, with the stored value if it is not null and with the
    instance's own [readOnly] otherwise; the completion callback makes no
    such call. Once an instance exists every write calls [setReadOnly] on it
    with the written value, leaving the stored value alone, and every read
    returns the instance's [readOnly]. *)
Theorem C5_readOnly_deferred_until_ready
    (c : Component.t E) (editor : E) (v : option bool) :
  instance c = None →
  let c0 := with_readOnly v c in
  let applied := Some (default (Editor.readOnly editor) v) in
  set_readOnly v c = Ok tt c0 []
  ∧ get_readOnly c0 = Ok v c0 []
  ∧ (∃ r c1 i1 tr1,
       instanceReady editor c0 = Ok r c1 tr1
       ∧ instance c1 = Some i1
       ∧ head tr1 = Some (Invoke (call_setReadOnly applied))
       ∧ setReadOnly_calls tr1 = [applied]
       ∧ (∀ undo, r = Some undo →
            setReadOnly_calls (trace_of (setData_callback undo c1)) = []))
  ∧ (∀ (c' : Component.t E) i' w, instance c' = Some i' →
       set_readOnly w c'
       = Ok tt (with_instance
                  (Some (mkInstance (Editor.setReadOnly w (native i')) (listeners i'))) c')
            [Invoke (call_setReadOnly w)]
       ∧ get_readOnly c' = Ok (Some (Editor.readOnly (native i'))) c' []).
Proof.
  intros Hi c0 applied.
  split; [by apply set_readOnly_pending|].
  split; [by apply get_readOnly_pending|].
  split.
  - pose proof (instanceReady_runs c0 editor) as Hready. cbn zeta in Hready.
    change (_readOnly c0) with v in Hready. fold applied in Hready.
    set (e1 := Editor.setReadOnly applied editor) in *.
    set (undo := Editor.undoManager e1) in *.
    destruct (_data c0) as [d|] eqn:Hd.
    + eexists _, _, _, _. split; [exact Hready|]. split; [reflexivity|].
      split; [reflexivity|]. split; [by destruct undo|].
      intros u [= <-].
      erewrite setData_callback_runs by reflexivity.
      cbn zeta. cbn [native listeners].
      case_decide; destruct undo; unfold forwarded, published; cbn;
        repeat match goal with
               | |- context [if ?b then _ else _] => destruct b
               end; reflexivity.
    + eexists _, _, _, _. split; [exact Hready|]. split; [reflexivity|].
      split; [reflexivity|].
      split; [by destruct undo, (config_on_instanceReady c0)|].
      intros u [=].
  - intros c' i' w Hi'. split.
    + by apply set_readOnly_delegates.
    + by apply get_readOnly_delegates.
Qed.

End WithEditor.

(** *** The component against a concrete editor *)

(** [propagateChange] on a native ['change']: the content [''] differs from
    the [null] cache. *)
Lemma C1_propagateChange_witness :
  ∃ c' tr,
    propagateChange "change" adopted = Ok tt c' tr
    ∧ emissions Output.dataChange tr = [Data ""]
    ∧ emissions Output.change tr = [Evt "change"]
    ∧ emissions Output.dataReady tr = [].
Proof.
  destruct (C1_propagateChange_emissions adopted
              (mkInstance SimpleEditor.classic (registered true)) "change" eq_refl)
    as (c' & tr & Hrun & Hdata & _ & _ & Hchange & Hready).
  exists c', tr. split; [exact Hrun|]. split; [exact Hdata|].
  split; [exact Hchange | exact Hready].
Defined.

(** C2, as stated, fails: the editor turns ['x'] into ['<p>x</p>'], which is
    what gets cached, so writing ['x'] again is a new value and calls
    [setData] a second time. *)
Lemma C2_second_write_calls_again : ¬ second_write_as_stated.
Proof.
  intros Hclaim. specialize (Hclaim SimpleEditor.t SimpleEditor.api adopted (Some "x")).
  vm_compute in Hclaim. discriminate Hclaim.
Qed.

(** Writes of ['<p>x</p>'], which the editor stores unchanged: the first one
    calls [setData] once and reads the content back, the second one does
    nothing. *)
Lemma C2_set_data_witness :
  let c1 := state_of (set_data (Some "<p>x</p>") adopted) in
  calls (trace_of (set_data (Some "<p>x</p>") adopted))
  = [call_setData (Some "<p>x</p>") false; call_getData]
  ∧ set_data (Some "<p>x</p>") c1 = Ok tt c1 [].
Proof.
  intros c1.
  destruct (C2_set_data_write adopted (Some "<p>x</p>"))
    as (_ & Hinst & _ & Hagain & _ & Hfix).
  split.
  - rewrite (Hinst ltac:(discriminate) _ eq_refl). reflexivity.
  - apply Hagain. exact (Hfix _ eq_refl eq_refl).
Defined.

(** C4, as stated, fails in the order the editor really works in: the
    native ['dataReady'] that follows [setData] reaches the component before
    the completion callback does, and brings the cache up to date. The
    content ['<p>x</p>'] differs from the supplied ['x'], and yet the
    callback fires nothing. *)
Lemma C4_dataReady_before_callback : ¬ Creation.initial_data_as_stated.
Proof.
  intros Hclaim.
  destruct (Hclaim SimpleEditor.t SimpleEditor.api configured SimpleEditor.classic
              "x" ["dataReady"] eq_refl eq_refl
              (mkInstance (SimpleEditor.mk "<p>x</p>" false (Some 1%nat) false)
                          (registered true))
              eq_refl ltac:(discriminate))
    as [name Hin].
  vm_compute in Hin.
  repeat (apply elem_of_cons in Hin as [Hin|Hin]; [discriminate Hin|]).
  by apply elem_of_nil in Hin.
Qed.

(** Creation with the initial data ['x'], a user callback and a registered
    [onChange], on the editor that stores ['<p>x</p>']. When the callback
    follows the handler at once, the content differs from the cached ['x']
    and ['change'] is fired; when the native ['dataReady'] is delivered
    first, the cache is the content already and nothing is fired. Either
    way the cache ends as the content. *)
Lemma C4_callback_witness :
  let c1 := state_of (instanceReady SimpleEditor.classic configured) in
  let c1' := state_of (deliver "dataReady" c1) in
  (∃ c2 i2,
      setData_callback true c1
      = Ok tt c2
          [ Invoke call_getData; Invoke (call_fire "change"); Invoke call_getData;
            Emit Output.change (Evt "change");
            Emit Output.dataChange (Data "<p>x</p>"); OnChange "<p>x</p>";
            Invoke call_unlock; UserInstanceReady;
            Emit Output.ready (Evt "instanceReady") ]
      ∧ instance c2 = Some i2
      ∧ _data c2 = Some (Editor.getData (native i2)))
  ∧ (∃ c2 i2,
      setData_callback true c1'
      = Ok tt c2
          [ Invoke call_getData; Invoke call_unlock; UserInstanceReady;
            Emit Output.ready (Evt "instanceReady") ]
      ∧ instance c2 = Some i2
      ∧ _data c2 = Some (Editor.getData (native i2))).
Proof.
  intros c1 c1'.
  destruct (C4_callback_compares_cache configured SimpleEditor.classic "x" eq_refl)
    as (undo & c0 & i0 & tr1 & Hready & _ & _ & _ & _ & _ & Hcb).
  assert (Hundo : undo = true).
  { vm_compute in Hready. by injection Hready as <- _ _. }
  subst undo. split.
  - destruct (Hcb c1 (mkInstance (SimpleEditor.mk "<p>x</p>" false (Some 1%nat) false)
                                 (registered true)) eq_refl eq_refl eq_refl)
      as (c2 & i2 & tr2 & Hrun & Htr & Hi2 & Hd2).
    vm_compute in Htr. subst tr2. by exists c2, i2.
  - destruct (Hcb c1' (mkInstance (SimpleEditor.mk "<p>x</p>" false (Some 1%nat) false)
                                  (registered true)) eq_refl eq_refl eq_refl)
      as (c2 & i2 & tr2 & Hrun & Htr & Hi2 & Hd2).
    vm_compute in Htr. subst tr2. by exists c2, i2.
Defined.

(** The read-only flag set to [true] before creation on an editor whose own
    default is [false]. *)
Lemma C5_readOnly_witness :
  let c := constructor (E := SimpleEditor.t) in
  set_readOnly (Some true) c = Ok tt (with_readOnly (Some true) c) []
  ∧ ∃ r c1 tr1,
      instanceReady SimpleEditor.classic (with_readOnly (Some true) c) = Ok r c1 tr1
      ∧ setReadOnly_calls tr1 = [Some true].
Proof.
  intros c.
  destruct (C5_readOnly_deferred_until_ready c SimpleEditor.classic (Some true) eq_refl)
    as (Hset & _ & (r & c1 & i1 & tr1 & Hready & _ & _ & Hcalls & _) & _).
  split; [exact Hset|].
  exists r, c1, tr1. split; [exact Hready | exact Hcalls].
Defined.

(** [subscribe] on an editor with the undo plugin. *)
Lemma C8_subscribe_witness :
  ∃ c' i' tr,
    subscribe assigned = Ok tt c' tr
    ∧ instance c' = Some i'
    ∧ listeners_for "dataReady" i' = [PropagateChange]
    ∧ listeners_for "change" i' = [PropagateChange]
    ∧ listeners_for "selectionCheck" i' = [].
Proof.
  destruct (C8_subscribe_binds_propagateChange assigned
              (mkInstance SimpleEditor.classic []) eq_refl eq_refl)
    as (c' & i' & tr & Hrun & Hi & Hready & Hchange & Hsel & _).
  exists c', i', tr. split; [exact Hrun|]. split; [exact Hi|].
  split; [exact Hready|]. split; [exact Hchange | exact Hsel].
Defined.

End ComponentFacts.

Module TestToolsFacts.
Import TestTools.

Section WithEditor.
Context {E : Type} `{Editor.API E}.

(** Equal runs, field by field, up to arithmetic on the clock. *)
Ltac by_fields := repeat first [ reflexivity | lia | progress f_equal ].

Lemma loop_last (turns : nat) (r : Run E) :
  loop (S turns) r = tick (loop turns r).
Proof.
  revert r. induction turns as [|n IH]; intros r; [reflexivity|].
  change (loop (S (S n)) r) with (loop (S n) (tick r)). by rewrite IH.
Qed.

Lemma loop_idle (turns : nat) (r : Run E) :
  timers r = [] → loop turns r = r.
Proof.
  intros Hq. induction turns as [|n IH]; [reflexivity|].
  rewrite loop_last, IH. unfold tick. by rewrite Hq.
Qed.

(** The helper after [k] turns of the event loop, while there is something
    left to push or to resolve: the first [k] strings were pushed, 100 ms
    apart, one more was taken off the array, and one timer is pending. *)
Lemma setDataHelper_turns (contents : list string) (k : nat) (r : Run E) :
  data r = contents → timers r = [] → (k ≤ length contents)%nat →
  loop k (setDataHelper r)
  = mkRun (pushed (take k contents) (editor r))
          (drop (S k) contents)
          (now r + 100 * Z.of_nat k)
          [(now r + 100 * Z.of_nat (S k), pending contents k)]
          (pushes r ++ spaced (now r) 100 (take k contents))
          (resolved r).
Proof.
  revert k r. induction contents as [|content rest IH]; intros k r Hd Hq Hk.
  - assert (k = O) as -> by (simpl in Hk; lia).
    unfold setDataHelper, setTimeout. rewrite Hd, Hq. cbn.
    rewrite app_nil_r. by_fields.
  - destruct k as [|k].
    + unfold setDataHelper, setTimeout. rewrite Hd, Hq. cbn.
      rewrite app_nil_r, drop_0. by_fields.
    + change (loop (S k) (setDataHelper r)) with (loop k (tick (setDataHelper r))).
      assert (Htick : tick (setDataHelper r)
                = setDataHelper
                    (mkRun (Editor.setData (Some content) (editor r)) rest
                       (now r + 100) [] (pushes r ++ [(now r + 100, content)])
                       (resolved r))).
      { unfold setDataHelper at 1. unfold setTimeout, tick. rewrite Hd, Hq. cbn.
        rewrite Z.max_r by lia. reflexivity. }
      rewrite Htick, IH; [|reflexivity|reflexivity|simpl in Hk; lia].
      cbn. rewrite <- app_assoc. cbn.
      by_fields.
Qed.

(** The helper run to completion. *)
Lemma setDataHelper_completes (r : Run E) :
  timers r = [] →
  let n := length (data r) in
  loop (S n) (setDataHelper r)
  = mkRun (pushed (data r) (editor r)) []
          (now r + 100 * Z.of_nat (S n)) []
          (pushes r ++ spaced (now r) 100 (data r))
          (Some (now r + 100 * Z.of_nat (S n))).
Proof.
  intros Hq n. subst n. rewrite loop_last.
  rewrite (setDataHelper_turns (data r) (length (data r)) r) by done.
  unfold tick, pending. cbn [timers].
  rewrite lookup_ge_None_2 by done.
  rewrite firstn_all, drop_ge by lia.
  unfold run_task, resolve. cbn. rewrite Z.max_r by lia. reflexivity.
Qed.

(** The inline branch. *)
Lemma forEach_push (contents : list string) (r : Run E) :
  foldl (λ acc content, push content acc) r contents
  = mkRun (pushed contents (editor r)) (data r) (now r) (timers r)
          (pushes r ++ map (λ content, (now r, content)) contents) (resolved r).
Proof.
  revert r. induction contents as [|content rest IH]; intros r; cbn.
  - rewrite app_nil_r. by destruct r.
  - rewrite IH. cbn. by rewrite <- app_assoc.
Qed.

Lemma pushed_last (init : list string) (last : string) (e : E) :
  pushed (init ++ [last]) e = Editor.setData (Some last) (pushed init e).
Proof. unfold pushed. by rewrite foldl_app. Qed.

Lemma setDataMultipleTimes_inline (r : Run E) :
  Editor.isInline (editor r) = true →
  setDataMultipleTimes r
  = mkRun (pushed (data r) (editor r)) (data r) (now r) (timers r)
          (pushes r ++ map (λ content, (now r, content)) (data r))
          (Some (now r)).
Proof.
  intros Hin. unfold setDataMultipleTimes. rewrite Hin. cbn [negb].
  by rewrite forEach_push.
Qed.

Lemma setDataMultipleTimes_framed (r : Run E) :
  Editor.isInline (editor r) = false → setDataMultipleTimes r = setDataHelper r.
Proof. intros Hin. unfold setDataMultipleTimes. by rewrite Hin. Qed.

(** C7, amended: on an inline editor the strings are pushed in order, all at
    the time of the call, and the promise is resolved at that same time,
    after the last push; the editor is left as the last [setData] call
    leaves it, so its content is its own serialization of the last string.
    On a non-inline editor the pushes are 100 ms apart, the first one 100 ms
    after the call, and the promise is resolved 100 ms after the last push
    and not before. *)
Theorem C7_sequenced_injection (r : Run E) :
  timers r = [] →
  (Editor.isInline (editor r) = true →
     let r' := setDataMultipleTimes r in
     pushes r' = pushes r ++ map (λ content, (now r, content)) (data r)
     ∧ resolved r' = Some (now r)
     ∧ now r' = now r
     ∧ timers r' = []
     ∧ editor r' = pushed (data r) (editor r)
     ∧ (∀ init last, data r = init ++ [last] →
          Editor.getData (editor r')
          = Editor.getData (Editor.setData (Some last) (pushed init (editor r)))))
  ∧ (Editor.isInline (editor r) = false →
     let n := length (data r) in
     let r' := loop (S n) (setDataMultipleTimes r) in
     pushes r' = pushes r ++ spaced (now r) 100 (data r)
     ∧ resolved r' = Some (now r + 100 * Z.of_nat (S n))
     ∧ timers r' = []
     ∧ editor r' = pushed (data r) (editor r)
     ∧ (∀ k, (k ≤ n)%nat →
          let rk := loop k (setDataMultipleTimes r) in
          resolved rk = resolved r
          ∧ now rk = now r + 100 * Z.of_nat k
          ∧ pushes rk = pushes r ++ spaced (now r) 100 (take k (data r)))).
Proof.
  intros Hq. split; intros Hin.
  - rewrite (setDataMultipleTimes_inline r Hin). cbn.
    split_and!; try done.
    intros init last Hd. by rewrite Hd, pushed_last.
  - rewrite (setDataMultipleTimes_framed r Hin). cbn zeta.
    rewrite (setDataHelper_completes r Hq). cbn.
    split_and!; try done.
    intros k Hk. by rewrite (setDataHelper_turns (data r) k r).
Qed.

(** C9: on a non-inline editor the helper takes the strings off the
    caller's array with [shift], one per turn and each one a turn before it
    is pushed, so that the array is empty when the promise is resolved; on
    an inline editor the array is left as it was. *)
Theorem C9_caller_array_consumed (r : Run E) :
  timers r = [] →
  (Editor.isInline (editor r) = false →
     let n := length (data r) in
     let r' := loop (S n) (setDataMultipleTimes r) in
     data r' = []
     ∧ resolved r' = Some (now r')
     ∧ (∀ k, (k ≤ n)%nat →
          let rk := loop k (setDataMultipleTimes r) in
          data rk = drop (S k) (data r) ∧ resolved rk = resolved r))
  ∧ (Editor.isInline (editor r) = true →
     let r' := setDataMultipleTimes r in
     data r' = data r
     ∧ resolved r' = Some (now r')
     ∧ (∀ k, data (loop k r') = data r)).
Proof.
  intros Hq. split; intros Hin.
  - rewrite (setDataMultipleTimes_framed r Hin). cbn zeta.
    rewrite (setDataHelper_completes r Hq). cbn.
    split_and!; try done.
    intros k Hk. by rewrite (setDataHelper_turns (data r) k r).
  - rewrite (setDataMultipleTimes_inline r Hin). cbn.
    split_and!; try done.
    intros k. by rewrite loop_idle.
Qed.

End WithEditor.

(** C7, as stated, fails: an inline editor that wraps bare text in a
    paragraph is given the one string ['x'] and ends with the content
    ['<p>x</p>']. *)
Lemma C7_content_is_what_the_editor_serializes :
  ¬ sequenced_injection_as_stated.
Proof.
  intros Hclaim.
  destruct (Hclaim SimpleEditor.t SimpleEditor.api
              (start SimpleEditor.inline_plain ["x"] 0) "x" eq_refl eq_refl)
    as [Hinline _].
  destruct (Hinline eq_refl) as (_ & _ & Hcontent).
  vm_compute in Hcontent. discriminate Hcontent.
Qed.

(** The inline scenario of the specification and a classic run. *)
Lemma C7_sequenced_injection_witness :
  let inline := start SimpleEditor.inline_plain ["<p>B</p>"; "<p>C</p>"] 0 in
  let classic := start SimpleEditor.classic ["<p>B</p>"; "<p>C</p>"] 0 in
  (Editor.getData (editor (setDataMultipleTimes inline)) = "<p>C</p>"
   ∧ pushes (setDataMultipleTimes inline) = [(0, "<p>B</p>"); (0, "<p>C</p>")]
   ∧ resolved (setDataMultipleTimes inline) = Some 0)
  ∧ (pushes (loop 3 (setDataMultipleTimes classic))
     = [(100, "<p>B</p>"); (200, "<p>C</p>")]
     ∧ resolved (loop 3 (setDataMultipleTimes classic)) = Some 300
     ∧ resolved (loop 2 (setDataMultipleTimes classic)) = None).
Proof.
  intros inline classic.
  destruct (C7_sequenced_injection inline eq_refl) as [Hin _].
  destruct (C7_sequenced_injection classic eq_refl) as [_ Hcl].
  destruct (Hin eq_refl) as (Hp & Hr & _ & _ & _ & Hc).
  destruct (Hcl eq_refl) as (Hp' & Hr' & _ & _ & Hk).
  destruct (Hk 2%nat) as (Hr2 & _); [simpl; lia|].
  split; [|split_and!].
  - split; [exact (Hc ["<p>B</p>"] "<p>C</p>" eq_refl) | by split].
  - exact Hp'.
  - exact Hr'.
  - exact Hr2.
Defined.

(** The same two runs, for the caller's array. *)
Lemma C9_caller_array_witness :
  let inline := start SimpleEditor.inline_plain ["<p>B</p>"; "<p>C</p>"] 0 in
  let classic := start SimpleEditor.classic ["<p>B</p>"; "<p>C</p>"] 0 in
  data (setDataMultipleTimes inline) = ["<p>B</p>"; "<p>C</p>"]
  ∧ data (loop 3 (setDataMultipleTimes classic)) = []
  ∧ data (loop 0 (setDataMultipleTimes classic)) = ["<p>C</p>"].
Proof.
  intros inline classic.
  destruct (C9_caller_array_consumed inline eq_refl) as [_ Hin].
  destruct (C9_caller_array_consumed classic eq_refl) as [Hcl _].
  destruct (Hin eq_refl) as (Hd & _).
  destruct (Hcl eq_refl) as (Hd' & _ & Hk).
  destruct (Hk 0%nat) as (Hd0 & _); [simpl; lia|].
  split; [exact Hd | split; [exact Hd' | exact Hd0]].
Defined.

End TestToolsFacts.

Module LifecycleFacts.
Import Component Lifecycle.
Import ComponentFacts.

Section WithEditor.
Context {E : Type} `{Editor.API E}.

Lemma namespace_then_destroyed (c : Component.t E) :
  _destroyed c = true → namespace_then c = Ok tt c [].
Proof. intros Hd. unfold namespace_then. unfold_monad. by rewrite Hd. Qed.

Lemma ngOnDestroy_without_instance (c : Component.t E) :
  instance c = None → ngOnDestroy c = Ok tt (with_destroyed true c) [].
Proof.
  intros Hi. unfold ngOnDestroy. unfold_monad. by repeat (rewrite Hi; cbn).
Qed.

Lemma set_data_without_instance (c : Component.t E) (data : option string) :
  instance c = None →
  set_data data c = Ok tt (if decide (data = _data c) then c else with_data data c) [].
Proof.
  intros Hi. unfold set_data. unfold_monad.
  case_decide; [reflexivity|]. by rewrite Hi.
Qed.

(** One action on an abandoned component: it stays abandoned, nothing is
    thrown, and the only effect there can be is one [namespaceLoaded]
    emission, by the loader's callback. *)
Lemma step_abandoned (w : World E) (a : Action E) :
  abandoned w →
  abandoned (step w a)
  ∧ thrown (step w a) = thrown w
  ∧ history (step w a)
    = history w ++ (if is_namespaceLoaded a && namespace_pending w
                    then [Emit Output.namespaceLoaded Namespace] else []).
Proof.
  intros (Hd & Hi & Hc). unfold abandoned.
  destruct a as [| | |editor| |name| |data|isReadOnly]; cbn [step is_namespaceLoaded andb].
  - by rewrite app_nil_r.
  - destruct (namespace_pending w); cbn; by rewrite ?app_nil_r.
  - destruct (namespace_pending w); [|by rewrite app_nil_r].
    cbv zeta. unfold exec, set_namespace_pending. cbn [component].
    rewrite Hd, (namespace_then_destroyed _ Hd).
    cbn. by rewrite app_nil_r.
  - rewrite Hc. by rewrite app_nil_r.
  - rewrite Hi. destruct (callback_pending w); by rewrite app_nil_r.
  - rewrite Hi. by rewrite app_nil_r.
  - unfold exec. rewrite (ngOnDestroy_without_instance _ Hi). cbn.
    by rewrite app_nil_r.
  - unfold exec. rewrite (set_data_without_instance _ _ Hi). cbn.
    rewrite app_nil_r. by case_decide.
  - unfold exec. rewrite (set_readOnly_pending _ _ Hi). cbn.
    by rewrite app_nil_r.
Qed.

(** C3, amended: once the destroyed latch is set before [createEditor] has
    begun, the [then] continuation returns without creating anything, and
    whatever happens afterwards, no editor instance is ever created or
    adopted, no handler throws, and no output is emitted other than
    [namespaceLoaded], which the loader's callback still emits if the
    namespace finishes loading after the teardown. *)
Theorem C3_teardown_before_createEditor (w : World E) (acts : list (Action E)) :
  _destroyed (component w) = true →
  instance (component w) = None →
  creating w = false →
  let w' := run acts w in
  namespace_then (component w) = Ok tt (component w) []
  ∧ instance (component w') = None
  ∧ creating w' = false
  ∧ thrown w' = thrown w
  ∧ (∃ n, (n ≤ length (filter (λ a, is_namespaceLoaded a = true) acts))%nat
          ∧ history w'
            = history w ++ replicate n (Emit Output.namespaceLoaded Namespace)).
Proof.
  intros Hd Hi Hc w'. split; [by apply namespace_then_destroyed|].
  assert (Hab : abandoned w) by done. clear Hd Hi Hc. subst w'.
  revert w Hab. induction acts as [|a acts IH]; intros w Hab.
  - destruct Hab as (_ & Hi & Hc). split_and!; try done.
    exists O. split; [done|]. by rewrite app_nil_r.
  - destruct (step_abandoned w a Hab) as (Hab' & Hthrown & Hhist).
    destruct (IH (step w a) Hab') as (Hi & Hc & Ht & n & Hn & Hh).
    change (run (a :: acts) w) with (run acts (step w a)).
    split_and!; try done; [congruence|].
    rewrite Hh, Hhist, <- app_assoc.
    destruct a; cbn [is_namespaceLoaded andb app] in *;
      rewrite ?filter_cons_False by done;
      try (exists n; split; [done|reflexivity]).
    rewrite filter_cons_True by done. destruct (namespace_pending w).
    + exists (S n). split; [simpl; lia | reflexivity].
    + exists n. split; [simpl; lia | reflexivity].
Qed.

End WithEditor.

(** C3, as stated, fails once [createEditor] has begun: torn down between
    the call of [CKEDITOR.replace] and the editor's [instanceReady], the
    component still adopts the instance and emits [ready]. *)
Lemma C3_teardown_while_creating : ¬ teardown_as_stated.
Proof.
  intros Hclaim.
  destruct (Hclaim SimpleEditor.t SimpleEditor.api constructor
              [AfterViewInit; NamespaceResolved; Destroy]
              [InstanceReady SimpleEditor.classic] eq_refl eq_refl)
    as (Hinst & _).
  vm_compute in Hinst. discriminate Hinst.
Qed.

(** Torn down while the namespace is loading, the component still emits
    [namespaceLoaded] when the loader calls back, and nothing else. *)
Lemma namespaceLoaded_after_teardown :
  let w := run [AfterViewInit; Destroy]
             (initial (constructor (E := SimpleEditor.t))) in
  let w' := run [NamespaceLoaded; NamespaceResolved] w in
  history w = [] ∧ history w' = [Emit Output.namespaceLoaded Namespace].
Proof. by vm_compute. Qed.

(** The runs above, through the theorem: a component torn down while the
    namespace loads. *)
Lemma C3_teardown_witness :
  let w := run [AfterViewInit; Destroy]
             (initial (constructor (E := SimpleEditor.t))) in
  let w' := run [NamespaceLoaded; NamespaceResolved;
                 InstanceReady SimpleEditor.classic; Native "change";
                 WriteData (Some "x")] w in
  instance (component w') = None ∧ thrown w' = false.
Proof.
  intros w w'.
  destruct (C3_teardown_before_createEditor w
              [NamespaceLoaded; NamespaceResolved;
               InstanceReady SimpleEditor.classic; Native "change";
               WriteData (Some "x")] eq_refl eq_refl eq_refl)
    as (_ & Hi & _ & Ht & _).
  split; [exact Hi | exact Ht].
Defined.

End LifecycleFacts.

(** * Further properties of the mock data transfer *)

Module DataTransferMore.
Import DataTransfer DataTransferRuns DataTransferFacts.

Lemma assign_other (key value : string) (object : gmap string string) :
  key ≠ "__proto__" → assign key value object = <[key := value]> object.
Proof. intros Hkey. unfold assign. by rewrite decide_False. Qed.

Lemma read_stored (type data : string) (dt : t) :
  _data dt !! type = Some data → read type dt = Some (Str data).
Proof. intros Hstored. unfold read, getData. by rewrite Hstored. Qed.

Lemma read_not_stored (type : string) (dt : t) :
  _data dt !! type = None → read type dt = inherited type.
Proof. intros Hstored. unfold read, getData. by rewrite Hstored. Qed.

Lemma read_same_store (k : string) (dt dt' : t) :
  _data dt' !! k = _data dt !! k → read k dt' = read k dt.
Proof. intros Hsame. unfold read, getData. by rewrite Hsame. Qed.

(** For a type that is not the name of a member of [Object.prototype], the
    two names of the plain-text entry among them, the read is the own
    property or [undefined]. *)
Lemma read_getData (type : string) (dt : t) :
  type ∉ Object_prototype → read type dt = Str <$> getData type dt.
Proof.
  intros Hown. unfold read, inherited. rewrite decide_False by done.
  by destruct (getData type dt).
Qed.

(** The clauses about reads that were shown for the own property hold for
    the read in full: a write of one name of the plain-text entry is read
    back under both, and [clearData] changes the read of no other type. *)
Lemma read_setData_alias (type data : string) (dt : t) :
  plain_text type →
  read "text/plain" (setData type data dt) = Some (Str data)
  ∧ read "Text" (setData type data dt) = Some (Str data).
Proof.
  intros Halias. destruct (getData_setData_alias type data dt Halias) as [Hplain Htext].
  split; by apply read_stored.
Qed.

Lemma read_clearData_other (type k : string) (dt : t) :
  k ≠ type → read k (clearData type dt) = read k dt.
Proof.
  intros Hne. apply read_same_store. by apply (getData_clearData_other type k dt).
Qed.

(** Nothing is ever stored under ['__proto__']. *)
Lemma no_own_proto_apply (dt : t) (op : Op) :
  _data dt !! "__proto__" = None → _data (apply dt op) !! "__proto__" = None.
Proof.
  intros Hnone. destruct op as [type data|type]; cbn [apply].
  - unfold setData, assign. cbn [_data].
    destruct (decide (type = "text/plain" ∨ type = "Text")) as [Halias|Halias].
    + by rewrite !lookup_insert_ne.
    + destruct (decide (type = "__proto__")) as [->|Hne]; [done|].
      by rewrite lookup_insert_ne.
  - unfold clearData. case_decide; [|done]. cbn [_data].
    destruct (decide (type = "__proto__")) as [->|Hne].
    + apply lookup_delete_eq.
    + by rewrite lookup_delete_ne.
Qed.

Lemma no_own_proto (ops : list Op) : _data (after ops) !! "__proto__" = None.
Proof.
  unfold after.
  assert (Hstart : _data mockNativeDataTransfer !! "__proto__" = None) by done.
  revert Hstart. generalize mockNativeDataTransfer.
  induction ops as [|op ops IH]; intros dt Hdt; [done|].
  cbn. apply IH. by apply no_own_proto_apply.
Qed.

(** X1: What was written under a type is what is read back under it, for every
    type but ['__proto__']: a write under that name stores nothing, and on a
    mock the read of it gives the prototype. A write leaves the read of
    every other type alone, except that a write of one name of the
    plain-text entry also writes the other. *)
Theorem read_after_setData (type data : string) (dt : t) :
  (type ≠ "__proto__" → read type (setData type data dt) = Some (Str data))
  ∧ _data (setData "__proto__" data dt) = _data dt
  ∧ (∀ ops, read "__proto__" (apply (after ops) (SetData "__proto__" data))
            = Some (Member "__proto__"))
  ∧ (∀ k, k ≠ type → ¬ (plain_text type ∧ plain_text k) →
       read k (setData type data dt) = read k dt).
Proof.
  split; [|split; [|split]].
  - intros Hproto. apply read_stored. unfold setData. cbn [_data].
    destruct (decide (type = "text/plain" ∨ type = "Text")) as [[->| ->]|Halias].
    + by rewrite lookup_insert_ne, lookup_insert_eq.
    + by rewrite lookup_insert_eq.
    + rewrite assign_other by done. by rewrite lookup_insert_eq.
  - reflexivity.
  - intros ops. rewrite read_not_stored; [reflexivity|].
    apply no_own_proto_apply, no_own_proto.
  - intros k Hk Hnot. apply read_same_store. unfold setData, plain_text in *.
    cbn [_data].
    destruct (decide (type = "text/plain" ∨ type = "Text")) as [Halias|Halias].
    + rewrite (lookup_insert_ne _ "Text" k) by (intros <-; apply Hnot; auto).
      by rewrite (lookup_insert_ne _ "text/plain" k) by (intros <-; apply Hnot; auto).
    + unfold assign. destruct (decide (type = "__proto__")); [done|].
      by rewrite lookup_insert_ne.
Qed.

(** X2: Writing a type that is neither listed nor stored, and is not a name of
    the plain-text entry, and clearing it again gives the mock back. *)
Theorem clearData_undoes_setData (type data : string) (dt : t) :
  type ∉ types dt → _data dt !! type = None → ¬ plain_text type →
  clearData type (setData type data dt) = dt.
Proof.
  intros Hlist Hstored Hplain. unfold plain_text in Hplain.
  rewrite (clearData_present type _ (types dt) []); [|reflexivity|done].
  unfold setData, assign. rewrite decide_False by done. cbn [_data types].
  rewrite app_nil_r. destruct (decide (type = "__proto__")).
  - rewrite delete_id by done. by destruct dt.
  - rewrite delete_insert_eq, delete_id by done. by destruct dt.
Qed.

Lemma clearData_undoes_setData_witness :
  clearData "URL" (setData "URL" "x" mockNativeDataTransfer) = mockNativeDataTransfer.
Proof.
  apply clearData_undoes_setData.
  - apply not_elem_of_nil.
  - reflexivity.
  - unfold plain_text. intros [H|H]; discriminate H.
Defined.

(** X3: A type written twice and cleared once is still listed but no longer
    stored: [clearData] drops one list entry and the stored value. Reading
    it gives [undefined], or the member of [Object.prototype] of that name
    (['toString'], say) that the stored value was hiding. *)
Theorem clearData_once_after_two_writes (type d1 d2 : string) (dt : t) :
  let dt' := clearData type (setData type d2 (setData type d1 dt)) in
  type ∈ types dt' ∧ _data dt' !! type = None ∧ read type dt' = inherited type.
Proof.
  set (written := setData type d2 (setData type d1 dt)).
  assert (Htypes : types written = types dt ++ [type; type]).
  { subst written. cbn. by rewrite <- app_assoc. }
  cbn zeta.
  assert (Hgone : ∀ l, _data {| types := l; _data := delete type (_data written) |}
                       !! type = None).
  { intros l. cbn. apply lookup_delete_eq. }
  destruct (decide (type ∈ types dt)) as [Hin|Hnot].
  - destruct (first_occurrence _ _ Hin) as (l1 & l2 & Heq & Hfirst).
    rewrite (clearData_present type written l1 (l2 ++ [type; type]));
      [|by rewrite Htypes, Heq, <- app_assoc|done].
    split; [|split; [apply Hgone | apply read_not_stored, Hgone]].
    cbn. rewrite !elem_of_app. right. right. apply list_elem_of_here.
  - rewrite (clearData_present type written (types dt) [type]);
      [|by rewrite Htypes|done].
    split; [|split; [apply Hgone | apply read_not_stored, Hgone]].
    cbn. rewrite elem_of_app. right. apply list_elem_of_here.
Qed.

Lemma clearData_keeps_other_types (type k : string) (dt : t) :
  k ≠ type → k ∈ types dt → k ∈ types (clearData type dt).
Proof.
  intros Hne Hk. destruct (decide (type ∈ types dt)) as [Hin|Hnot].
  - destruct (first_occurrence _ _ Hin) as (l1 & l2 & Heq & Hfirst).
    rewrite (clearData_present type dt l1 l2 Heq Hfirst). cbn.
    rewrite Heq, elem_of_app, elem_of_cons in Hk. rewrite elem_of_app.
    destruct Hk as [?|[?|?]]; [by left|done|by right].
  - by rewrite clearData_absent.
Qed.

Lemma stored_is_listed_apply (dt : t) (op : Op) :
  stored_is_listed dt → stored_is_listed (apply dt op).
Proof.
  intros Hinv k. destruct op as [type data|type]; cbn [apply].
  - assert (Hold : is_Some (_data dt !! k) → k ∈ types dt ++ [type] ∨ plain_text k).
    { intros Hk. destruct (Hinv k Hk); [left|by right].
      apply elem_of_app. by left. }
    unfold setData. cbn [_data types].
    destruct (decide (type = "text/plain" ∨ type = "Text")) as [Halias|Halias].
    + destruct (decide (k = "Text")) as [->|HneT]; [intros _; right; by right|].
      destruct (decide (k = "text/plain")) as [->|HneP]; [intros _; right; by left|].
      by rewrite !lookup_insert_ne.
    + unfold assign. destruct (decide (type = "__proto__")); [exact Hold|].
      destruct (decide (k = type)) as [->|Hne].
      * intros _. left. apply elem_of_app. right. apply list_elem_of_here.
      * by rewrite lookup_insert_ne.
  - destruct (decide (k = type)) as [->|Hne].
    + destruct (decide (type ∈ types dt)) as [Hin|Hnot].
      * destruct (first_occurrence _ _ Hin) as (l1 & l2 & Heq & Hfirst).
        rewrite (clearData_present type dt l1 l2 Heq Hfirst). cbn [_data].
        rewrite lookup_delete_eq. by intros [? ?].
      * rewrite clearData_absent by done. apply Hinv.
    + pose proof (getData_clearData_other type k dt Hne) as Hsame.
      unfold getData in Hsame. rewrite Hsame. intros Hk.
      destruct (Hinv k Hk); [left|by right].
      by apply clearData_keeps_other_types.
Qed.

Lemma stored_is_listed_run (ops : list Op) (dt : t) :
  stored_is_listed dt → stored_is_listed (foldl apply dt ops).
Proof.
  revert dt. induction ops as [|op ops IH]; intros dt Hdt; [done|].
  cbn. apply IH. by apply stored_is_listed_apply.
Qed.

(** X4: Whatever calls were made on the mock, a type that is not in the type
    list and is not a name of the plain-text entry is not stored: reading it
    gives [undefined], or the member of [Object.prototype] of that name
    (['constructor'] on a fresh mock, say), never a string. *)
Theorem unlisted_type_not_stored (ops : list Op) (k : string) :
  ¬ plain_text k → k ∉ types (after ops) →
  _data (after ops) !! k = None ∧ read k (after ops) = inherited k.
Proof.
  intros Hplain Hlist.
  assert (Hinv : stored_is_listed (after ops)).
  { apply stored_is_listed_run. intros k' [v Hv]. cbn in Hv.
    by rewrite lookup_empty in Hv. }
  assert (Hnone : _data (after ops) !! k = None).
  { destruct (_data (after ops) !! k) as [v|] eqn:Hk; [|done].
    destruct (Hinv k) as [?|?]; [by exists v|done|done]. }
  split; [exact Hnone | by apply read_not_stored].
Qed.

Lemma unlisted_type_not_stored_witness :
  read "URL"
    (after [SetData "URL" "a"; SetData "URL" "b"; ClearData "URL"; ClearData "URL"])
  = None
  ∧ read "constructor" (after []) = Some (Member "constructor").
Proof.
  split.
  - refine (proj2 (unlisted_type_not_stored
                     [SetData "URL" "a"; SetData "URL" "b"; ClearData "URL";
                      ClearData "URL"] "URL" _ _)).
    + unfold plain_text. intros [H|H]; discriminate H.
    + vm_compute. apply not_elem_of_nil.
  - refine (proj2 (unlisted_type_not_stored [] "constructor" _ _)).
    + unfold plain_text. intros [H|H]; discriminate H.
    + apply not_elem_of_nil.
Defined.

(** X5: As long as only [setData] is called, the two names of the plain-text
    entry read the same. *)
Theorem plain_text_names_agree (calls : list (string * string)) :
  getData "Text" (setData_all calls mockNativeDataTransfer)
  = getData "text/plain" (setData_all calls mockNativeDataTransfer).
Proof.
  unfold setData_all.
  assert (Hstart : getData "Text" mockNativeDataTransfer
                   = getData "text/plain" mockNativeDataTransfer) by done.
  revert Hstart. generalize mockNativeDataTransfer.
  induction calls as [|[type data] calls IH]; intros dt Hdt; [done|].
  cbn. apply IH. unfold getData, setData in *. cbn [_data].
  destruct (decide (type = "text/plain" ∨ type = "Text")) as [Halias|Halias].
  - rewrite lookup_insert_eq, lookup_insert_ne, lookup_insert_eq; done.
  - unfold assign. destruct (decide (type = "__proto__")); [done|].
    rewrite (lookup_insert_ne _ type "Text") by (intros ->; apply Halias; by right).
    by rewrite (lookup_insert_ne _ type "text/plain")
      by (intros ->; apply Halias; by left).
Qed.

End DataTransferMore.

Module WidgetFacts.
Import Widgets.

Section Lookup.
Context {Element Widget : Type}.
Variable getById : string → option Element.
Variable getByElement : option Element → option Widget.
Variable element_id : Widget → string.

(** X6: With [byElement] set, a widget that is returned has the requested id on
    its own element and is the widget the plain lookup returns; the plain
    lookup returns whatever the repository finds, whatever its id. *)
Theorem getWidgetById_byElement (id : string) (w : Widget) :
  getWidgetById getById getByElement element_id id true = Some w →
  element_id w = id
  ∧ getWidgetById getById getByElement element_id id false = Some w.
Proof.
  unfold getWidgetById. cbn zeta.
  destruct (getByElement (getById id)) as [w'|]; [|done].
  case_decide; [|done]. by intros [= <-].
Qed.

End Lookup.

(** A repository that finds the widget ['w1'] behind the element ['w1']. *)
Lemma getWidgetById_byElement_witness :
  let getById (id : string) := if decide (id = "w1") then Some 1%nat else None in
  let getByElement (e : option nat) := if e is Some _ then Some "w1" else None in
  getWidgetById getById getByElement id "w1" false = Some "w1".
Proof.
  intros getById getByElement.
  exact (proj2 (getWidgetById_byElement getById getByElement id "w1" "w1" eq_refl)).
Defined.

End WidgetFacts.

(** * Further properties of the component *)

Module ComponentMore.
Import Component Fixture Creation.
Import ComponentFacts.

Section WithEditor.
Context {E : Type} `{Editor.API E}.

Ltac advance_by tac :=
  match goal with
  | |- context [ mbind ?f ?m ?c ] =>
      let Hm := fresh "Hm" in
      eassert (Hm : m c = Ok _ _ _) by tac;
      rewrite (bind_run m f c _ _ _ Hm); clear Hm; cbn [prepend]
  end.
Ltac advance := advance_by ltac:(reflexivity).

Lemma with_data_same (c : Component.t E) : with_data (_data c) c = c.
Proof. by destruct c. Qed.

Lemma calls_app (tr1 tr2 : list Effect) : calls (tr1 ++ tr2) = calls tr1 ++ calls tr2.
Proof.
  induction tr1 as [|e tr1 IH]; [done|]. destruct e; cbn; by rewrite ?IH.
Qed.

Lemma emissions_app (o : Output.t) (tr1 tr2 : list Effect) :
  emissions o (tr1 ++ tr2) = emissions o tr1 ++ emissions o tr2.
Proof.
  induction tr1 as [|e tr1 IH]; [done|].
  destruct e; cbn; rewrite ?IH; try done. by case_decide.
Qed.

Lemma filter_name_absent (name : string) (l : list (string * Handler)) :
  name ∉ l.*1 → filter (λ l0 : string * Handler, l0.1 = name) l = [].
Proof.
  induction l as [|[n h] l IH]; intros Hnot; [done|].
  cbn in Hnot. apply not_elem_of_cons in Hnot as [Hne Hnot].
  rewrite filter_cons_False by (cbn; congruence). by apply IH.
Qed.

(** Listeners under a name that is registered once, or not at all. *)
Lemma listeners_for_once (name : string) (h : Handler) (i : Instance E) :
  NoDup (listeners i).*1 → (name, h) ∈ listeners i → listeners_for name i = [h].
Proof.
  unfold listeners_for. induction (listeners i) as [|[n h'] l IH]; intros Hnd Hin.
  - by apply elem_of_nil in Hin.
  - cbn in Hnd. apply NoDup_cons in Hnd as [Hfresh Hnd].
    apply elem_of_cons in Hin as [[= <- <-]|Hin].
    + rewrite filter_cons_True by done. cbn. f_equal.
      by rewrite filter_name_absent.
    + rewrite filter_cons_False; [by apply IH|].
      cbn. intros ->. apply Hfresh, list_elem_of_fmap. by exists (name, h).
Qed.

Lemma listeners_for_none (name : string) (i : Instance E) :
  name ∉ (listeners i).*1 → listeners_for name i = [].
Proof.
  intros Hnot. unfold listeners_for. by rewrite filter_name_absent.
Qed.

Lemma registered_once (undo : bool) : NoDup (registered undo).*1.
Proof. destruct undo; refine (bool_decide_unpack _ _); by vm_compute. Qed.

Lemma deliver_runs (c : Component.t E) (i : Instance E) (name : string) :
  instance c = Some i → deliver name c = handle_all (listeners_for name i) name c.
Proof.
  intros Hi. unfold deliver.
  advance_by ltac:(apply the_instance_runs; exact Hi).
  destruct (handle_all _ _ _); cbn; by rewrite ?app_nil_l.
Qed.

Lemma deliver_single (c : Component.t E) (i : Instance E) (name : string) (h : Handler) :
  instance c = Some i → NoDup (listeners i).*1 → (name, h) ∈ listeners i →
  deliver name c = prepend [] (match handle h name c with
                               | Ok _ c1 tr1 => Ok tt c1 (tr1 ++ [])
                               | Throw e c1 tr1 => Throw e c1 tr1
                               end).
Proof.
  intros Hi Hnd Hin. rewrite (deliver_runs c i name Hi).
  rewrite (listeners_for_once name h i Hnd Hin). cbn [handle_all].
  unfold mbind, M_bind. destruct (handle h name c) as [[] c1 tr1|e c1 tr1]; reflexivity.
Qed.

Lemma deliver_forward
    (c : Component.t E) (i : Instance E) (undo : bool) (name : string) (out : Output.t) :
  instance c = Some i → listeners i = registered undo →
  (name, out) ∈ forwards →
  deliver name c = Ok tt c [Emit out (Evt name)].
Proof.
  intros Hi Hl Hin.
  rewrite (deliver_single c i name (Forward out) Hi).
  - reflexivity.
  - rewrite Hl. apply registered_once.
  - rewrite Hl. apply list_elem_of_In in Hin. apply list_elem_of_In.
    unfold forwards in Hin. simpl in Hin. unfold registered. simpl.
    destruct undo; intuition (try congruence);
      match goal with Heq : (_, _) = (_, _) |- _ => injection Heq as <- <- end;
      auto 20.
Qed.

Lemma deliver_blur (c : Component.t E) (i : Instance E) (undo : bool) :
  instance c = Some i → listeners i = registered undo →
  deliver "blur" c
  = Ok tt c ((if onTouched c then [OnTouched] else [])
             ++ [Emit Output.blur (Evt "blur")]).
Proof.
  intros Hi Hl. rewrite (deliver_single c i "blur" BlurHandler Hi).
  - cbn [handle]. unfold_monad. destruct (onTouched c); reflexivity.
  - rewrite Hl. apply registered_once.
  - rewrite Hl. apply list_elem_of_In. destruct undo; simpl; auto 20.
Qed.

Lemma trace_of_bind {A B} (m : M A) (f : A → M B) (c : Component.t E) :
  trace_of ((m ≫= f) c)
  = match m c with
    | Ok a c1 tr1 => tr1 ++ trace_of (f a c1)
    | Throw _ _ tr1 => tr1
    end.
Proof.
  unfold mbind, M_bind. destruct (m c) as [a c1 tr1|e c1 tr1]; [|done].
  by destruct (f a c1).
Qed.

(** One listener: it returns, changes nothing but the cache, and calls
    nothing on the editor but [getData]. *)
Lemma handle_frame (c : Component.t E) (i : Instance E) (h : Handler) (name : string) :
  instance c = Some i →
  ∃ d tr,
    handle h name c = Ok tt (with_data d c) tr
    ∧ (d = _data c ∨ d = Some (Editor.getData (native i)))
    ∧ Forall (λ k, k = call_getData) (calls tr).
Proof.
  intros Hi. destruct h as [o| |]; cbn [handle].
  - exists (_data c), [Emit o (Evt name)]. rewrite with_data_same.
    split; [reflexivity|]. split; [by left | by constructor].
  - exists (_data c),
      ((if onTouched c then [OnTouched] else []) ++ [Emit Output.blur (Evt name)]).
    rewrite with_data_same. split.
    + unfold_monad. destruct (onTouched c); reflexivity.
    + split; [by left|]. destruct (onTouched c); by constructor.
  - rewrite (propagateChange_runs c i name Hi). cbn zeta.
    unfold forwarded, published.
    destruct (decide (Some (Editor.getData (native i)) = _data c)) as [Hsame|Hdiff].
    + exists (_data c). eexists. rewrite with_data_same.
      split; [reflexivity|]. split; [by left|].
      repeat case_decide; cbn; repeat constructor.
    + exists (Some (Editor.getData (native i))). eexists.
      split; [reflexivity|]. split; [by right|].
      repeat case_decide; destruct (onChange c); cbn; repeat constructor.
Qed.

Lemma handle_all_frame
    (hs : list Handler) (c : Component.t E) (i : Instance E) (name : string) :
  instance c = Some i →
  ∃ d tr,
    handle_all hs name c = Ok tt (with_data d c) tr
    ∧ (d = _data c ∨ d = Some (Editor.getData (native i)))
    ∧ Forall (λ k, k = call_getData) (calls tr).
Proof.
  revert c. induction hs as [|h hs IH]; intros c Hi.
  - exists (_data c), []. rewrite with_data_same.
    split; [reflexivity|]. split; [by left | constructor].
  - destruct (handle_frame c i h name Hi) as (d1 & tr1 & Hh & Hd1 & Hc1).
    destruct (IH (with_data d1 c) Hi) as (d2 & tr2 & Hrest & Hd2 & Hc2).
    exists d2, (tr1 ++ tr2). cbn [handle_all].
    rewrite (bind_run _ _ _ _ _ _ Hh), Hrest. cbn [prepend].
    split; [reflexivity|]. split.
    + cbn in Hd2. destruct Hd2 as [Hd2|Hd2]; subst d2; [exact Hd1 | by right].
    + rewrite calls_app. by apply Forall_app.
Qed.

Lemma native_event_frame_aux (c : Component.t E) (i : Instance E) (name : string) :
  instance c = Some i → ∃ d tr, deliver name c = Ok tt (with_data d c) tr.
Proof.
  intros Hi. rewrite (deliver_runs c i name Hi).
  destruct (handle_all_frame (listeners_for name i) c i name Hi) as (d & tr & Hd & _).
  by exists d, tr.
Qed.

(** X7: On a component subscribed to its instance, each of the eight native
    events that are forwarded as they are makes the component emit the
    matching output once, with the event itself, and nothing else: the
    component is unchanged and the editor is not called. *)
Theorem native_event_forwarded
    (c : Component.t E) (i : Instance E) (undo : bool) (name : string) (out : Output.t) :
  instance c = Some i → listeners i = registered undo →
  (name, out) ∈ forwards →
  deliver name c = Ok tt c [Emit out (Evt name)].
Proof. apply deliver_forward. Qed.

(** X8: A native blur calls the registered touched callback, if there is one,
    and then emits [blur]; after [registerOnTouched] the callback is called
    on every blur, before it never. *)
Theorem blur_calls_onTouched_first (c : Component.t E) (i : Instance E) (undo : bool) :
  instance c = Some i → listeners i = registered undo →
  deliver "blur" c
  = Ok tt c ((if onTouched c then [OnTouched] else [])
             ++ [Emit Output.blur (Evt "blur")])
  ∧ (∃ c1, registerOnTouched c = Ok tt c1 []
           ∧ deliver "blur" c1 = Ok tt c1 [OnTouched; Emit Output.blur (Evt "blur")])
  ∧ (onTouched c = false →
     deliver "blur" c = Ok tt c [Emit Output.blur (Evt "blur")]).
Proof.
  intros Hi Hl. split; [by apply (deliver_blur c i undo)|]. split.
  - exists (with_onTouched true c). split; [reflexivity|].
    by rewrite (deliver_blur (with_onTouched true c) i undo).
  - intros Hoff. rewrite (deliver_blur c i undo Hi Hl). by rewrite Hoff.
Qed.

Lemma registered_handlers (undo : bool) (name : string) (h : Handler) :
  (name, h) ∈ registered undo → h ≠ Forward Output.change.
Proof.
  intros Hin%list_elem_of_In. unfold registered in Hin. simpl in Hin.
  destruct undo; intuition (try congruence);
    match goal with Heq : (_, _) = (_, _) |- _ => injection Heq as <- <- end;
    discriminate.
Qed.

Lemma handle_all_no_change (hs : list Handler) (name : string) (c : Component.t E) :
  Forward Output.change ∉ hs → name ≠ "change" →
  emissions Output.change (trace_of (handle_all hs name c)) = [].
Proof.
  intros Hhs Hname. revert c. induction hs as [|h hs IH]; intros c; [done|].
  apply not_elem_of_cons in Hhs as [Hh Hhs]. cbn [handle_all].
  rewrite trace_of_bind.
  assert (Hone : emissions Output.change (trace_of (handle h name c)) = []).
  { destruct h as [o| |]; cbn [handle].
    - cbn. case_decide; [congruence|done].
    - unfold_monad. by destruct (onTouched c).
    - destruct (instance c) as [i|] eqn:Hi.
      + rewrite (propagateChange_runs c i name Hi). cbn zeta.
        unfold forwarded, published.
        destruct (decide (name = "change")) as [|_]; [done|].
        repeat case_decide; destruct (onChange c); reflexivity.
      + by rewrite propagateChange_without_instance. }
  destruct (handle h name c) as [[] c1 tr1|e c1 tr1]; cbn in *; [|done].
  by rewrite emissions_app, Hone, (IH Hhs).
Qed.

(** X9: On an editor without an undo manager the [change] output is never
    emitted, whatever native event arrives, and a native ['change'] has no
    effect at all; a native ['selectionCheck'] takes its place in keeping
    the cache and [dataChange] up to date. *)
Theorem no_change_output_without_undo
    (c : Component.t E) (i : Instance E) (name : string) :
  instance c = Some i → listeners i = registered false →
  emissions Output.change (trace_of (deliver name c)) = []
  ∧ deliver "change" c = Ok tt c []
  ∧ deliver "selectionCheck" c
    = (let newData := Editor.getData (native i) in
       if decide (Some newData = _data c)
       then Ok tt c [Invoke call_getData]
       else Ok tt (with_data (Some newData) c)
               (Invoke call_getData :: published c newData)).
Proof.
  intros Hi Hl.
  assert (Hchange : deliver "change" c = Ok tt c []).
  { rewrite (deliver_runs c i _ Hi), listeners_for_none; [reflexivity|].
    rewrite Hl. intros Hin%list_elem_of_In. simpl in Hin.
    intuition discriminate. }
  split; [|split; [exact Hchange|]].
  - destruct (decide (name = "change")) as [->|Hname]; [by rewrite Hchange|].
    rewrite (deliver_runs c i _ Hi). apply handle_all_no_change; [|done].
    unfold listeners_for. intros Hin.
    apply list_elem_of_fmap in Hin as ([n h] & Hh & Hin). cbn in Hh. subst h.
    apply list_elem_of_filter in Hin as [_ Hin]. rewrite Hl in Hin.
    by apply registered_handlers in Hin.
  - rewrite (deliver_single c i "selectionCheck" PropagateChange Hi).
    + cbn [handle]. rewrite (propagateChange_runs c i _ Hi). cbn zeta.
      case_decide; cbn; by rewrite ?app_nil_r.
    + rewrite Hl. apply registered_once.
    + rewrite Hl. apply list_elem_of_In. simpl. auto 20.
Qed.

(** X10: Whatever listeners the instance has, a native event delivered to the
    component returns normally, leaves every field but the cache as it was,
    sets the cache, if at all, to the content of the editor, and calls
    nothing on the editor but [getData]. *)
Theorem native_event_frame (c : Component.t E) (i : Instance E) (name : string) :
  instance c = Some i →
  ∃ d tr,
    deliver name c = Ok tt (with_data d c) tr
    ∧ (d = _data c ∨ d = Some (Editor.getData (native i)))
    ∧ Forall (λ k, k = call_getData) (calls tr).
Proof.
  intros Hi. rewrite (deliver_runs c i name Hi). by apply handle_all_frame.
Qed.

(** X11: When [propagateChange] has returned, the cache is the content of the
    editor, and running it again, for whatever event, leaves the component
    as it is and emits no [dataChange] and calls no change callback. *)
Theorem propagateChange_settles
    (c : Component.t E) (i : Instance E) (name : string) :
  instance c = Some i →
  let c1 := state_of (propagateChange name c) in
  _data c1 = Some (Editor.getData (native i))
  ∧ instance c1 = Some i
  ∧ (∀ name', propagateChange name' c1
              = Ok tt c1 (Invoke call_getData :: forwarded name')).
Proof.
  intros Hi c1.
  assert (Hc1 : _data c1 = Some (Editor.getData (native i)) ∧ instance c1 = Some i).
  { subst c1. rewrite (propagateChange_runs c i name Hi). cbn zeta.
    case_decide; cbn; [by split|done]. }
  destruct Hc1 as [Hd1 Hi1]. split; [done|]. split; [done|].
  intros name'. rewrite (propagateChange_runs c1 i name' Hi1). cbn zeta.
  by rewrite decide_True.
Qed.

(** Putting a trace in the form of what came before the end of creation
    and that end. *)
Ltac split_off tr0 :=
  match goal with
  | Hsplit : ∀ (cfg : bool) (tr : list Effect), _ |- emissions _ ?l = _ ∧ _ =>
      match l with
      | context [ if ?cfg then [UserInstanceReady] else [] ] =>
          replace l with (tr0 ++ (if cfg then [UserInstanceReady] else [])
                              ++ [Emit Output.ready (Evt "instanceReady")])
            by (rewrite <- ?app_assoc; cbn [app]; rewrite <- ?app_assoc; reflexivity);
          apply Hsplit
      end
  end.

Lemma set_data_pushes (c : Component.t E) (i : Instance E) (data : option string) :
  instance c = Some i → data ≠ _data c →
  set_data data c
  = Ok tt (with_data (Some (Editor.getData (Editor.setData data (native i))))
             (with_instance
                (Some (mkInstance (Editor.setData data (native i)) (listeners i))) c))
       [Invoke (call_setData data false); Invoke call_getData].
Proof.
  intros Hi Hne. unfold set_data. unfold_monad.
  rewrite decide_False by done. by repeat (rewrite Hi; cbn).
Qed.

Lemma set_data_same (c : Component.t E) (data : option string) :
  data = _data c → set_data data c = Ok tt c [].
Proof. intros Heq. unfold set_data. unfold_monad. by rewrite decide_True. Qed.

Lemma ngOnDestroy_with_instance (c : Component.t E) (i : Instance E) :
  instance c = Some i →
  ngOnDestroy c
  = Ok tt (with_instance None (with_destroyed true c)) [Invoke call_destroy].
Proof.
  intros Hi. unfold ngOnDestroy. advance. advance.
  cbn [instance with_destroyed]. rewrite Hi.
  advance_by ltac:(apply invoke_runs; exact Hi). reflexivity.
Qed.

(** X12: [ngOnDestroy] sets the destroyed latch and clears the instance handle;
    it calls [destroy] on the instance once if there is one and makes no
    call otherwise, so that running it a second time does nothing. The cache
    and the stored read-only flag are left as they were. *)
Theorem ngOnDestroy_destroys_once (c : Component.t E) :
  let c1 := state_of (ngOnDestroy c) in
  ngOnDestroy c
  = Ok tt c1 (if instance c is Some _ then [Invoke call_destroy] else [])
  ∧ _destroyed c1 = true
  ∧ instance c1 = None
  ∧ _data c1 = _data c
  ∧ _readOnly c1 = _readOnly c
  ∧ ngOnDestroy c1 = Ok tt c1 [].
Proof.
  destruct (instance c) as [i|] eqn:Hi.
  - rewrite (ngOnDestroy_with_instance c i Hi). cbn.
    by split_and!.
  - rewrite (LifecycleFacts.ngOnDestroy_without_instance c Hi). cbn.
    split_and!; try done.
    by rewrite LifecycleFacts.ngOnDestroy_without_instance.
Qed.

(** X13: After the teardown of a component that had its instance, the accessors
    work on the component alone again: the read-only getter returns the
    value stored before the instance existed, whatever was written to the
    instance since, and writes to either property are stored without any
    call. *)
Theorem accessors_after_teardown
    (c : Component.t E) (i : Instance E) (w : option bool) :
  instance c = Some i →
  let c1 := state_of (ngOnDestroy (state_of (set_readOnly w c))) in
  get_readOnly c1 = Ok (_readOnly c) c1 []
  ∧ get_data c1 = Ok (_data c) c1 []
  ∧ (∀ v, set_readOnly v c1 = Ok tt (with_readOnly v c1) [])
  ∧ (∀ data, ∃ c2, set_data data c1 = Ok tt c2 [] ∧ _data c2 = data).
Proof.
  intros Hi. rewrite (set_readOnly_delegates c i w Hi). cbn [state_of].
  erewrite ngOnDestroy_with_instance by reflexivity. cbn [state_of].
  set (c1 := with_instance None _). cbn zeta.
  split; [reflexivity|]. split; [reflexivity|]. split.
  - intros v. by apply set_readOnly_pending.
  - intros data. rewrite LifecycleFacts.set_data_without_instance by reflexivity.
    case_decide; eexists; (split; [reflexivity|]); [by subst data | reflexivity].
Qed.

(** X14: However the instance is created, with or without initial data, with or
    without an undo manager, the creation returns normally, [ready] is
    emitted exactly once and is the last thing that happens, and the user's
    instance-ready callback, if there is one, is called exactly once, just
    before it. *)
Theorem ready_emitted_once_and_last (c : Component.t E) (editor : E) :
  ∃ c1 i1 tr,
    created editor c = Ok tt c1 tr
    ∧ instance c1 = Some i1
    ∧ emissions Output.ready tr = [Evt "instanceReady"]
    ∧ userInstanceReady_calls tr
      = (if config_on_instanceReady c then 1%nat else 0%nat)
    ∧ (∃ before,
         tr = before
              ++ (if config_on_instanceReady c then [UserInstanceReady] else [])
              ++ [Emit Output.ready (Evt "instanceReady")]
         ∧ emissions Output.ready before = []
         ∧ userInstanceReady_calls before = 0%nat).
Proof.
  unfold created. rewrite instanceReady_runs. cbn zeta.
  set (isReadOnly := Some (default (Editor.readOnly editor) (_readOnly c))).
  set (e1 := Editor.setReadOnly isReadOnly editor).
  assert (Hsplit : ∀ (cfg : bool) (tr : list Effect),
    emissions Output.ready tr = [] → userInstanceReady_calls tr = 0%nat →
    let all := tr ++ (if cfg then [UserInstanceReady] else [])
                  ++ [Emit Output.ready (Evt "instanceReady")] in
    emissions Output.ready all = [Evt "instanceReady"]
    ∧ userInstanceReady_calls all = (if cfg then 1%nat else 0%nat)
    ∧ (∃ before,
         all = before ++ (if cfg then [UserInstanceReady] else [])
                      ++ [Emit Output.ready (Evt "instanceReady")]
         ∧ emissions Output.ready before = []
         ∧ userInstanceReady_calls before = 0%nat)).
  { intros cfg tr He Hu all. subst all. rewrite emissions_app, He.
    assert (Hcount : ∀ tr2, userInstanceReady_calls (tr ++ tr2)
                            = userInstanceReady_calls tr2).
    { intros tr2. clear He. induction tr as [|e tr IH]; [done|].
      destruct e; cbn in *; try done; by apply IH. }
    rewrite Hcount. split; [by destruct cfg|]. split; [by destruct cfg|].
    by exists tr. }
  destruct (_data c) as [d|] eqn:Hd.
  - erewrite setData_callback_runs by reflexivity. cbn zeta.
    cbn [native listeners _data with_instance config_on_instanceReady].
    rewrite Hd.
    set (undo := Editor.undoManager e1).
    set (e2 := Editor.setData (Some d) (if undo then Editor.lock e1 else e1)).
    set (tr1 := Invoke (call_setReadOnly isReadOnly) :: _).
    destruct (decide (Some d = Some (Editor.getData e2))) as [Hsame|Hdiff];
      cbn [prepend];
      eexists _, (mkInstance (if undo then Editor.unlock e2 else e2) (registered undo)), _;
      (split; [reflexivity|]); (split; [by destruct undo|]).
    + split_off (tr1 ++ Invoke call_getData
                     :: (if undo then [Invoke call_unlock] else [])).
      all: subst tr1; destruct undo; reflexivity.
    + split_off (tr1 ++ Invoke call_getData
                     :: Invoke (call_fire (if undo then "change" else "dataReady"))
                     :: Invoke call_getData
                     :: forwarded (if undo then "change" else "dataReady")
                     ++ published c (Editor.getData e2)
                     ++ (if undo then [Invoke call_unlock] else [])).
      all: subst tr1; unfold published; destruct undo, (onChange c); reflexivity.
  - set (undo := Editor.undoManager e1).
    eexists _, _, _. split; [reflexivity|]. split; [reflexivity|].
    cbn [config_on_instanceReady with_instance].
    split_off (Invoke (call_setReadOnly isReadOnly)
               :: map (λ l, Invoke (call_on l.1 l.2)) (registered undo)).
    all: by destruct undo.
Qed.

(** X15: On a component that has its instance and a string in its cache, no
    write empties the cache: [writeValue( null )] hands [null] to
    [setData] and caches the string that [getData] returns afterwards. *)
Theorem writeValue_on_live_editor (c : Component.t E) (i : Instance E) :
  instance c = Some i → _data c ≠ None →
  (∀ data, ∃ content, _data (state_of (writeValue data c)) = Some content)
  ∧ writeValue None c
    = Ok tt (with_data (Some (Editor.getData (Editor.setData None (native i))))
               (with_instance
                  (Some (mkInstance (Editor.setData None (native i)) (listeners i))) c))
         [Invoke (call_setData None false); Invoke call_getData].
Proof.
  intros Hi Hcached. unfold writeValue. split.
  - intros data. destruct (decide (data = _data c)) as [Hsame|Hdiff].
    + rewrite (set_data_same c data Hsame). cbn.
      destruct (_data c) as [content|]; [by exists content | done].
    + rewrite (set_data_pushes c i data Hi Hdiff). cbn. by eexists.
  - apply set_data_pushes; [done|]. by intros Hnull.
Qed.

Lemma setData_callback_frame (c : Component.t E) (i : Instance E) (undo : bool) :
  instance c = Some i →
  ∃ d tr,
    setData_callback undo c
    = Ok tt (if undo
             then with_instance
                    (Some (mkInstance (Editor.unlock (native i)) (listeners i)))
                    (with_data d c)
             else with_data d c) tr.
Proof.
  intros Hi. unfold setData_callback, get_data.
  advance_by ltac:(advance; reflexivity).
  advance_by ltac:(apply query_runs; exact Hi).
  assert (Hfire : ∃ d tr,
    (if decide (_data c ≠ Some (Editor.getData (native i)))
     then fire (if undo then "change" else "dataReady")
     else mret tt) c = Ok tt (with_data d c) tr).
  { case_decide.
    - unfold fire. destruct (native_event_frame_aux c i
        (if undo then "change" else "dataReady") Hi) as (d & tr & Hd).
      exists d. eexists. advance. rewrite Hd. reflexivity.
    - exists (_data c), []. by rewrite with_data_same. }
  destruct Hfire as (d & tr & Hfire). exists d.
  rewrite (bind_run _ _ _ _ _ _ Hfire). cbn [prepend]. destruct undo.
  - advance_by ltac:(apply invoke_runs; exact Hi).
    rewrite emit_ready_runs. eexists. reflexivity.
  - advance. rewrite emit_ready_runs. eexists. reflexivity.
Qed.

End WithEditor.
End ComponentMore.

(** * Further properties of the component over time *)

Module LifecycleMore.
Import Component Lifecycle Creation Fixture.
Import ComponentFacts ComponentMore.

Section WithEditor.
Context {E : Type} `{Editor.API E}.

Lemma exec_component {A} (m : M A) (w : World E) :
  component (exec m w).1 = state_of (m (component w))
  ∧ history (exec m w).1 = history w ++ trace_of (m (component w)).
Proof. unfold exec. by destruct (m (component w)). Qed.

(** What an action does to the component: nothing, or what one method does. *)
Lemma step_component (w : World E) (a : Action E) :
  component (step w a)
  = match a with
    | AfterViewInit | NamespaceLoaded => component w
    | NamespaceResolved =>
        if namespace_pending w then state_of (namespace_then (component w))
        else component w
    | InstanceReady editor =>
        if creating w then state_of (instanceReady editor (component w))
        else component w
    | SetDataCallback =>
        match callback_pending w, instance (component w) with
        | Some undo, Some _ => state_of (setData_callback undo (component w))
        | _, _ => component w
        end
    | Native name =>
        if instance (component w) is Some _
        then state_of (deliver name (component w)) else component w
    | Destroy => state_of (ngOnDestroy (component w))
    | WriteData data => state_of (set_data data (component w))
    | WriteReadOnly isReadOnly => state_of (set_readOnly isReadOnly (component w))
    end.
Proof.
  destruct a as [| | |editor| |name| |data|isReadOnly]; cbn [step].
  - reflexivity.
  - destruct (namespace_pending w); [|reflexivity].
    by rewrite (proj1 (exec_component _ _)).
  - destruct (namespace_pending w); [|reflexivity]. cbv zeta.
    pose proof (proj1 (exec_component namespace_then (set_namespace_pending false w)))
      as Hc.
    destruct (exec namespace_then (set_namespace_pending false w)) as [w2 created].
    destruct (_destroyed _); [exact Hc|]. by destruct created.
  - destruct (creating w); [|reflexivity].
    unfold exec. cbn [set_creating component].
    by destruct (instanceReady editor (component w)) as [[?|] ? ?|? ? ?].
  - destruct (callback_pending w) as [undo|]; [|reflexivity].
    destruct (instance (component w)); [|reflexivity].
    by rewrite (proj1 (exec_component _ _)).
  - destruct (instance (component w)); [|reflexivity].
    by rewrite (proj1 (exec_component _ _)).
  - by rewrite (proj1 (exec_component _ _)).
  - by rewrite (proj1 (exec_component _ _)).
  - by rewrite (proj1 (exec_component _ _)).
Qed.

Lemma set_data_kept (c : Component.t E) (data : option string) :
  kept c (state_of (set_data data c)).
Proof.
  destruct (decide (data = _data c)) as [Hsame|Hdiff].
  - by rewrite (set_data_same c data Hsame).
  - destruct (instance c) as [i|] eqn:Hi.
    + rewrite (set_data_pushes c i data Hi Hdiff). unfold kept, wiring. cbn.
      by rewrite Hi.
    + rewrite (LifecycleFacts.set_data_without_instance c data Hi).
      rewrite decide_False by done. unfold kept, wiring. by cbn.
Qed.

Lemma set_readOnly_kept (c : Component.t E) (isReadOnly : option bool) :
  kept c (state_of (set_readOnly isReadOnly c)).
Proof.
  destruct (instance c) as [i|] eqn:Hi.
  - rewrite (set_readOnly_delegates c i isReadOnly Hi). unfold kept, wiring. cbn.
    by rewrite Hi.
  - rewrite (set_readOnly_pending c isReadOnly Hi). unfold kept, wiring. by cbn.
Qed.

Lemma deliver_kept (c : Component.t E) (i : Instance E) (name : string) :
  instance c = Some i → kept c (state_of (deliver name c)).
Proof.
  intros Hi. destruct (native_event_frame_aux c i name Hi) as (d & tr & Hd).
  rewrite Hd. unfold kept, wiring. by cbn.
Qed.

Lemma setData_callback_kept (c : Component.t E) (i : Instance E) (undo : bool) :
  instance c = Some i → kept c (state_of (setData_callback undo c)).
Proof.
  intros Hi. destruct (setData_callback_frame c i undo Hi) as (d & tr & Hd).
  rewrite Hd. unfold kept, wiring. destruct undo; cbn; by rewrite ?Hi.
Qed.

Lemma namespace_then_kept (c : Component.t E) :
  kept c (state_of (namespace_then c)).
Proof.
  unfold namespace_then, createEditor. unfold_monad.
  destruct (_destroyed c); [done|]. by destruct (Editor.createElement (tagName c)).
Qed.

Lemma instanceReady_rewires (c : Component.t E) (editor : E) :
  let c' := state_of (instanceReady editor c) in
  _destroyed c' = _destroyed c ∧ ∃ undo, wiring c' = Some (registered undo).
Proof.
  rewrite instanceReady_runs. cbn zeta.
  destruct (_data c); cbn; (split; [reflexivity|]); by eexists.
Qed.

Lemma step_destroyed (w : World E) (a : Action E) :
  _destroyed (component (step w a)) = _destroyed (component w) || is_destroy a.
Proof.
  rewrite step_component.
  destruct a as [| | |editor| |name| |data|isReadOnly]; cbn [is_destroy];
    rewrite ?orb_false_r; try reflexivity.
  - destruct (namespace_pending w); [|done]. apply namespace_then_kept.
  - destruct (creating w); [|done]. apply instanceReady_rewires.
  - destruct (callback_pending w); [|done].
    destruct (instance (component w)) as [i|] eqn:Hi; [|done].
    by apply (setData_callback_kept _ i).
  - destruct (instance (component w)) as [i|] eqn:Hi; [|done].
    by apply (deliver_kept _ i).
  - rewrite orb_true_r. destruct (instance (component w)) as [i|] eqn:Hi.
    + by rewrite (ngOnDestroy_with_instance _ i Hi).
    + by rewrite (LifecycleFacts.ngOnDestroy_without_instance _ Hi).
  - apply set_data_kept.
  - apply set_readOnly_kept.
Qed.

Lemma step_wired (w : World E) (a : Action E) :
  wired (component w) → wired (component (step w a)).
Proof.
  intros Hw. rewrite step_component.
  assert (Hkept : ∀ c', kept (component w) c' → wired c').
  { intros c' [_ Hsame]. unfold wired. by rewrite Hsame. }
  destruct a as [| | |editor| |name| |data|isReadOnly]; try done.
  - destruct (namespace_pending w); [|done]. apply Hkept, namespace_then_kept.
  - destruct (creating w); [|done].
    destruct (instanceReady_rewires (component w) editor) as (_ & undo & Hu).
    intros l Hl. rewrite Hu in Hl. injection Hl as <-. by exists undo.
  - destruct (callback_pending w); [|done].
    destruct (instance (component w)) as [i|] eqn:Hi; [|done].
    by apply Hkept, (setData_callback_kept _ i).
  - destruct (instance (component w)) as [i|] eqn:Hi; [|done].
    by apply Hkept, (deliver_kept _ i).
  - intros l Hl. destruct (instance (component w)) as [i|] eqn:Hi.
    + by rewrite (ngOnDestroy_with_instance _ i Hi) in Hl.
    + rewrite (LifecycleFacts.ngOnDestroy_without_instance _ Hi) in Hl.
      unfold wiring in Hl. cbn in Hl. by rewrite Hi in Hl.
  - apply Hkept, set_data_kept.
  - apply Hkept, set_readOnly_kept.
Qed.

(** X17: The destroyed latch is set by [ngOnDestroy] and by nothing else, and is
    never reset: after any run of hooks, writes and callbacks it is set
    exactly if it was set before or [ngOnDestroy] ran. *)
Theorem destroyed_latch (w : World E) (acts : list (Action E)) :
  _destroyed (component (run acts w))
  = _destroyed (component w) || existsb is_destroy acts.
Proof.
  revert w. induction acts as [|a acts IH]; intros w; cbn.
  - by rewrite orb_false_r.
  - change (foldl step (step w a) acts) with (run acts (step w a)).
    by rewrite IH, step_destroyed, orb_assoc.
Qed.

Lemma run_wired (acts : list (Action E)) (w : World E) :
  wired (component w) → wired (component (run acts w)).
Proof.
  revert w. induction acts as [|a acts IH]; intros w Hw; [done|].
  apply IH. by apply step_wired.
Qed.

(** X18: Whatever happened to a component since it was constructed, an instance
    it holds carries the listeners of [subscribe] exactly once; so a native
    event that is forwarded as it is makes the component emit the matching
    output exactly once and changes nothing. *)
Theorem listeners_registered_once
    (c0 : Component.t E) (acts : list (Action E)) (name : string) (out : Output.t) :
  instance c0 = None →
  let w := run acts (initial c0) in
  (∀ i, instance (component w) = Some i → ∃ undo, listeners i = registered undo)
  ∧ (is_Some (instance (component w)) → (name, out) ∈ forwards →
     component (step w (Native name)) = component w
     ∧ history (step w (Native name)) = history w ++ [Emit out (Evt name)]).
Proof.
  intros Hnone w.
  assert (Hw : wired (component w)).
  { apply run_wired. intros l Hl. unfold wiring in Hl. cbn in Hl.
    by rewrite Hnone in Hl. }
  assert (Hreg : ∀ i, instance (component w) = Some i →
                      ∃ undo, listeners i = registered undo).
  { intros i Hi. apply Hw. unfold wiring. by rewrite Hi. }
  split; [exact Hreg|]. intros [i Hi] Hin.
  destruct (Hreg i Hi) as [undo Hl].
  pose proof (deliver_forward (component w) i undo name out Hi Hl Hin) as Hd.
  cbn [step]. rewrite Hi.
  destruct (exec_component (deliver name) w) as [Hc Hh].
  rewrite Hc, Hh, Hd. by cbn.
Qed.





End WithEditor.

(** *** The further properties against a concrete editor *)

(** Focus on the component that has adopted the classic editor. *)
Lemma native_event_forwarded_witness :
  deliver "focus" adopted = Ok tt adopted [Emit Output.focus (Evt "focus")].
Proof.
  apply (native_event_forwarded adopted
           (mkInstance SimpleEditor.classic (registered true)) true);
    [reflexivity | reflexivity |].
  apply list_elem_of_here.
Defined.

Lemma blur_calls_onTouched_first_witness :
  deliver "blur" adopted = Ok tt adopted [Emit Output.blur (Evt "blur")].
Proof.
  destruct (blur_calls_onTouched_first adopted
              (mkInstance SimpleEditor.classic (registered true)) true
              eq_refl eq_refl) as (_ & _ & Hoff).
  exact (Hoff eq_refl).
Defined.

(** The same component on the inline editor, which has no undo manager. *)
Lemma no_change_output_without_undo_witness :
  let c := with_instance
             (Some (mkInstance SimpleEditor.inline_plain (registered false)))
             (constructor (E := SimpleEditor.t)) in
  deliver "change" c = Ok tt c [].
Proof.
  intros c.
  destruct (no_change_output_without_undo c
              (mkInstance SimpleEditor.inline_plain (registered false)) "change"
              eq_refl eq_refl) as (_ & Hchange & _).
  exact Hchange.
Defined.

Lemma native_event_frame_witness :
  ∃ d tr, deliver "dataReady" adopted = Ok tt (with_data d adopted) tr.
Proof.
  destruct (native_event_frame adopted
              (mkInstance SimpleEditor.classic (registered true)) "dataReady" eq_refl)
    as (d & tr & Hrun & _).
  by exists d, tr.
Defined.

Lemma propagateChange_settles_witness :
  _data (state_of (propagateChange "change" adopted)) = Some "".
Proof.
  exact (proj1 (propagateChange_settles adopted
                  (mkInstance SimpleEditor.classic (registered true)) "change" eq_refl)).
Defined.

(** Read-only stored as [true] before creation, written [false] on the
    instance, and read again after the teardown. *)
Lemma accessors_after_teardown_witness :
  let c := with_readOnly (Some true) adopted in
  get_readOnly (state_of (ngOnDestroy (state_of (set_readOnly (Some false) c))))
  = Ok (Some true) (state_of (ngOnDestroy (state_of (set_readOnly (Some false) c)))) [].
Proof.
  intros c.
  exact (proj1 (accessors_after_teardown c
                  (mkInstance SimpleEditor.classic (registered true)) (Some false)
                  eq_refl)).
Defined.

Lemma writeValue_on_live_editor_witness :
  let c := with_data (Some "<p>x</p>") adopted in
  ∃ content, _data (state_of (writeValue None c)) = Some content.
Proof.
  intros c.
  destruct (writeValue_on_live_editor c
              (mkInstance SimpleEditor.classic (registered true)) eq_refl
              ltac:(discriminate)) as [Hall _].
  exact (Hall None).
Defined.

(** A creation followed by a write and a native focus. *)
Lemma listeners_registered_once_witness :
  let w := run (creation SimpleEditor.classic ++ [WriteData (Some "x")])
             (initial configured) in
  history (step w (Native "focus")) = history w ++ [Emit Output.focus (Evt "focus")].
Proof.
  intros w.
  destruct (listeners_registered_once configured
              (creation SimpleEditor.classic ++ [WriteData (Some "x")])
              "focus" Output.focus eq_refl) as [_ Hfocus].
  apply Hfocus; [vm_compute; by eexists | apply list_elem_of_here].
Defined.


End LifecycleMore.
